(** * AI_Doc_Assistant: the incremental indexing and retrieval-gate pipeline

    A shallow embedding of the parts of [utils.py], [analysis.py] and
    [main.py] that decide how the document corpus is synchronised, chunked
    and gated, together with the properties established about them.

    Conventions of the embedding.
    - A Python [str] is a Rocq [string]; a character is read as the code
      point of the same number, so the embedding covers the code points
      0..255.  [lower], [split] and [strip] are written out for that range.
    - A Python [dict] is an insertion-ordered association list ([Dict.get],
      [Dict.set], [Dict.update]); a Python [set] of words is a [gset string].
    - Calls into libraries that are not part of the repository (the file
      parsers, the recursive text splitter, the conversation chain) are
      parameters: section variables, or a record of functions;
      [hashlib.md5] is written out after RFC 1321.
    - A float is the rational number it denotes ([Q]).  The quotient
      [len(overlap) / len(meaningful_query_words)] is the double nearest to
      the exact ratio ([true_divide]); a threshold is the double the caller
      passes (0.3 is the double nearest to 3/10, 0.25 is exact); not-a-number
      and the infinities are not thresholds of the embedding.
    - The persisted files are written without failure, and the documents
      folder is named without a trailing separator. *)

From Stdlib Require Import ZArith QArith Ascii Bool Lia Lqa.
From Stdlib Require Import Strings.Byte.
From stdpp Require Import gmap strings list.

Set Warnings "-abstract-large-number,-clear-no-such-hyp".

Close Scope Q_scope.
Open Scope nat_scope.

(** String concatenation unfolds on a constructor, as list concatenation
    does. *)
Arguments String.append !_ _ : simpl nomatch.

(** ** Python strings *)

Module PyStr.

(** [str.isspace] on one character: the code points below 256 for which
    Python answers [True]. *)
Definition isspace (c : ascii) : bool :=
  let n := nat_of_ascii c in
  ((9 <=? n) && (n <=? 13)) || ((28 <=? n) && (n <=? 32))
  || (n =? 133) || (n =? 160).

(** [str.lower] on one character: A-Z and the Latin-1 capitals move up
    by 32; the multiplication sign (215) is not a letter. *)
Definition lower_char (c : ascii) : ascii :=
  let n := nat_of_ascii c in
  if ((65 <=? n) && (n <=? 90))
     || ((192 <=? n) && (n <=? 222) && negb (n =? 215))
  then ascii_of_nat (n + 32) else c.

Fixpoint lower (s : string) : string :=
  match s with
  | EmptyString => EmptyString
  | String c r => String (lower_char c) (lower r)
  end.

(** [s.split()] with no argument: the maximal runs of characters that are
    not white space, in order.  [cur] is the word being read. *)
Fixpoint split_from (cur : string) (s : string) : list string :=
  match s with
  | EmptyString => if decide (cur = "") then [] else [cur]
  | String c r =>
      if isspace c
      then (if decide (cur = "") then split_from "" r
            else cur :: split_from "" r)
      else split_from (cur +:+ String c "") r
  end.

Definition split (s : string) : list string := split_from "" s.

(** [s.strip()] is the empty string exactly when every character of [s]
    is white space; [bool(s.strip())] is therefore: *)
Fixpoint strip_nonempty (s : string) : bool :=
  match s with
  | EmptyString => false
  | String c r => negb (isspace c) || strip_nonempty r
  end.

Fixpoint startswith (p s : string) : bool :=
  match p, s with
  | EmptyString, _ => true
  | String _ _, EmptyString => false
  | String a p', String b s' => Ascii.eqb a b && startswith p' s'
  end.

(** [needle in hay] on strings: [needle] occurs as a substring. *)
Fixpoint contains (needle hay : string) : bool :=
  startswith needle hay
  || match hay with
     | EmptyString => false
     | String _ r => contains needle r
     end.

(** [any(word in s for word in words)]. *)
Definition any_in (words : list string) (s : string) : bool :=
  existsb (fun w => contains w s) words.

End PyStr.

(** ** Insertion-ordered dictionaries *)

Module Dict.
Section Dict.
Context {V : Type}.

Definition t := list (string * V).

Fixpoint get (k : string) (d : t) : option V :=
  match d with
  | [] => None
  | (k', v) :: r => if decide (k = k') then Some v else get k r
  end.

(** [d[k] = v]: an existing key keeps its place, a new key goes last. *)
Fixpoint set (k : string) (v : V) (d : t) : t :=
  match d with
  | [] => [(k, v)]
  | (k', v') :: r =>
      if decide (k = k') then (k, v) :: r else (k', v') :: set k v r
  end.

(** [d.update(other)]. *)
Definition update (d other : t) : t :=
  fold_left (fun acc kv => set (fst kv) (snd kv) acc) other d.

Definition keys (d : t) : list string := map fst d.

Definition mem (k : string) (d : t) : bool :=
  match get k d with Some _ => true | None => false end.
End Dict.
Arguments t : clear implicits.
End Dict.

(** ** Reading a list in groups *)

(** Cut a list into consecutive groups of [k] elements, the last one
    possibly shorter; [fuel] bounds their number. *)
Fixpoint groups {A : Type} (fuel k : nat) (l : list A) : list (list A) :=
  match fuel with
  | O => []
  | S fuel' =>
      match l with
      | [] => []
      | _ :: _ => take k l :: groups fuel' k (drop k l)
      end
  end.

(** ** Documents and their metadata *)

(** A metadata value: the pipeline stores strings and integers. *)
Inductive meta_value : Type :=
| MStr (s : string)
| MInt (n : nat).

(** [langchain_core.documents.Document]. *)
Record Doc : Type := mkDoc {
  page_content : string;
  metadata : Dict.t meta_value
}.

(** ** Results of calls that may raise *)

Inductive result (A : Type) : Type :=
| Ok (a : A)
| Raise (msg : string).
Arguments Ok {A} a.
Arguments Raise {A} msg.

(** ** [hashlib.md5] (RFC 1321) *)

Module MD5.
Local Open Scope Z_scope.

Definition mask32 : Z := 4294967295.
Definition add32 (a b : Z) : Z := Z.land (a + b) mask32.
Definition not32 (x : Z) : Z := Z.lxor x mask32.
Definition rotl32 (x n : Z) : Z :=
  Z.land (Z.lor (Z.shiftl x n) (Z.shiftr x (32 - n))) mask32.

Definition K : list Z :=
  [3614090360; 3905402710; 606105819; 3250441966; 4118548399; 1200080426; 2821735955; 4249261313;
   1770035416; 2336552879; 4294925233; 2304563134; 1804603682; 4254626195; 2792965006; 1236535329;
   4129170786; 3225465664; 643717713; 3921069994; 3593408605; 38016083; 3634488961; 3889429448;
   568446438; 3275163606; 4107603335; 1163531501; 2850285829; 4243563512; 1735328473; 2368359562;
   4294588738; 2272392833; 1839030562; 4259657740; 2763975236; 1272893353; 4139469664; 3200236656;
   681279174; 3936430074; 3572445317; 76029189; 3654602809; 3873151461; 530742520; 3299628645;
   4096336452; 1126891415; 2878612391; 4237533241; 1700485571; 2399980690; 4293915773; 2240044497;
   1873313359; 4264355552; 2734768916; 1309151649; 4149444226; 3174756917; 718787259; 3951481745].

Definition shifts : list Z :=
  [7; 12; 17; 22; 7; 12; 17; 22; 7; 12; 17; 22; 7; 12; 17; 22;
   5; 9; 14; 20; 5; 9; 14; 20; 5; 9; 14; 20; 5; 9; 14; 20;
   4; 11; 16; 23; 4; 11; 16; 23; 4; 11; 16; 23; 4; 11; 16; 23;
   6; 10; 15; 21; 6; 10; 15; 21; 6; 10; 15; 21; 6; 10; 15; 21].

(** The round function and the index of the message word of step [i]. *)
Definition round_fn (i : nat) (b c d : Z) : Z * nat :=
  if (i <? 16)%nat then (Z.lor (Z.land b c) (Z.land (not32 b) d), i)
  else if (i <? 32)%nat
       then (Z.lor (Z.land d b) (Z.land (not32 d) c), ((5 * i + 1) mod 16)%nat)
  else if (i <? 48)%nat
       then (Z.lxor (Z.lxor b c) d, ((3 * i + 5) mod 16)%nat)
  else (Z.lxor c (Z.lor b (not32 d)), ((7 * i) mod 16)%nat).

Definition state : Type := Z * Z * Z * Z.

Definition step (M : list Z) (st : state) (i : nat) : state :=
  let '(a, b, c, d) := st in
  let '(f, g) := round_fn i b c d in
  let f' := add32 (add32 (add32 f a) (nth i K 0)) (nth g M 0) in
  (d, add32 b (rotl32 f' (nth i shifts 0)), b, c).

Definition process_block (st : state) (M : list Z) : state :=
  let '(a0, b0, c0, d0) := st in
  let '(a, b, c, d) := fold_left (step M) (seq 0 64) st in
  (add32 a0 a, add32 b0 b, add32 c0 c, add32 d0 d).

Definition initial : state := (1732584193, 4023233417, 2562383102, 271733878).

(** [n] as [k] little-endian bytes. *)
Fixpoint le_bytes (k : nat) (n : Z) : list Z :=
  match k with
  | O => []
  | S k' => Z.land n 255 :: le_bytes k' (Z.shiftr n 8)
  end.

Fixpoint of_le_bytes (bs : list Z) : Z :=
  match bs with
  | [] => 0
  | b :: r => b + 256 * of_le_bytes r
  end.

(** The message, the byte 128, zeros up to 56 modulo 64, and the length
    in bits as eight little-endian bytes. *)
Definition pad (msg : list Z) : list Z :=
  let n := length msg in
  let zeros := ((64 + 55 - n mod 64) mod 64)%nat in
  msg ++ [128] ++ repeat 0 zeros ++ le_bytes 8 (8 * Z.of_nat n).

Definition block_words (block : list Z) : list Z :=
  map of_le_bytes (groups 16 4 block).

Definition digest (msg : list Z) : list Z :=
  let padded := pad msg in
  let blocks := map block_words (groups (length padded) 64 padded) in
  let '(a, b, c, d) := fold_left process_block blocks initial in
  le_bytes 4 a ++ le_bytes 4 b ++ le_bytes 4 c ++ le_bytes 4 d.

Definition hex_char (n : Z) : ascii :=
  nth (Z.to_nat n) (String.list_ascii_of_string "0123456789abcdef") "0"%char.

Fixpoint hex (bs : list Z) : string :=
  match bs with
  | [] => ""
  | b :: r => String (hex_char (Z.shiftr b 4)) (String (hex_char (Z.land b 15)) (hex r))
  end.

Definition byte_val (b : byte) : Z := Z.of_N (Byte.to_N b).

(** [hashlib.md5(data).hexdigest()]. *)
Definition hexdigest (data : list byte) : string :=
  hex (digest (map byte_val data)).
End MD5.

(** ** The corpus folder *)

(** One file as [os.walk] reports it: the sub-folders between the documents
    folder and the file, the file name, what reading it yields ([None]: the
    file cannot be opened or read), and its modification time. *)
Record file_entry : Type := mkFile {
  dir : list string;
  fname : string;
  content : option (list byte);
  mtime : Z
}.

(** [os.path.join] of a folder and one component. *)
Definition path_join (a b : string) : string := a +:+ "/" +:+ b.

(** [root] of the walk, and [os.path.join(root, file)]. *)
Definition root_of (documents_folder : string) (f : file_entry) : string :=
  fold_left path_join (dir f) documents_folder.

Definition file_path_of (documents_folder : string) (f : file_entry) : string :=
  path_join (root_of documents_folder f) (fname f).

(** [os.path.relpath(root, documents_folder)]. *)
Definition relpath (d : list string) : string :=
  match d with
  | [] => "."
  | top :: below => fold_left path_join below top
  end.

(** [s.split(sep)] for a one-character separator: empty pieces are kept. *)
Fixpoint split_on (sep : ascii) (cur : string) (s : string) : list string :=
  match s with
  | EmptyString => [cur]
  | String c r =>
      if decide (c = sep) then cur :: split_on sep "" r
      else split_on sep (cur +:+ String c "") r
  end.

(** [os.path.basename]. *)
Definition basename (p : string) : string :=
  List.last (split_on "/" "" p) "".

Fixpoint skip_dots (s : string) : string :=
  match s with
  | String c r => if decide (c = "."%char) then skip_dots r else s
  | EmptyString => s
  end.

(** The suffix of [s] that starts at its last dot, if it has a dot. *)
Fixpoint from_last_dot (s : string) : option string :=
  match s with
  | EmptyString => None
  | String c r =>
      match from_last_dot r with
      | Some e => Some e
      | None => if decide (c = "."%char) then Some s else None
      end
  end.

(** [os.path.splitext(p)[1]]: the extension starts at the last dot of the
    base name; dots that lead the base name do not start an extension. *)
Definition splitext_ext (p : string) : string :=
  match from_last_dot (skip_dots (basename p)) with
  | Some e => e
  | None => ""
  end.

(** ** Content hashes ([get_file_hash]) *)

(** The [hashlib] object is the bytes it has been fed; the file is read in
    pieces of 4096 bytes until a read returns nothing. *)
Definition get_file_hash (f : option (list byte)) : result string :=
  match f with
  | None => Raise "cannot open file"
  | Some data =>
      let hash_md5 :=
        fold_left (fun fed chunk => fed ++ chunk)
                  (groups (length data) 4096 data) [] in
      Ok (MD5.hexdigest hash_md5)
  end.

(** ** The ledger of processed files *)

Record file_info : Type := mkInfo {
  hash : string;
  name : string;
  extension : string;
  folder : string
}.

(** The two persisted artefacts: [processed_files_info.json] and the
    [vectorstore] directory (the chunks the index holds, in the order they
    were added); [None] when the artefact does not exist. *)
Record store : Type := mkStore {
  ledger_file : option (Dict.t file_info);
  vectorstore_dir : option (list Doc)
}.

Definition load_processed_files_info (st : store) : Dict.t file_info :=
  match ledger_file st with
  | Some info => info
  | None => []
  end.

Definition load_vectorstore (st : store) : option (list Doc) :=
  vectorstore_dir st.

(** ** Text extraction ([extract_text_from_file_path]) *)

Inductive encoding : Type := Utf8 | Latin1 | Cp1252.

(** The parsing libraries.  Each call either returns or raises; [decode]
    raises exactly on a [UnicodeDecodeError]. *)
Record library : Type := mkLibrary {
  docx_paragraphs : list byte -> result (list string);
  pdf_pages : list byte -> result (list string);
  read_csv : encoding -> list byte -> result string;
  read_excel : list byte -> result string;
  decode : encoding -> list byte -> result string
}.

Definition concat_strings (l : list string) : string :=
  fold_left String.append l "".

(** The [for encoding in encodings] loop of the [txt] branch. *)
Fixpoint read_text (lib : library) (encodings : list encoding)
    (data : list byte) : string :=
  match encodings with
  | [] => ""
  | e :: rest =>
      match decode lib e data with
      | Ok text => text
      | Raise _ => read_text lib rest data
      end
  end.

Definition extract_text_from_file_path (lib : library) (file_path : string)
    (file : option (list byte)) : string :=
  let file_type := PyStr.lower (List.last (split_on "." "" file_path) "") in
  match file with
  | None => ""
  | Some data =>
      if decide (file_type = "docx") then
        match docx_paragraphs lib data with
        | Ok paragraphs =>
            concat_strings (map (fun p => p +:+ "
") paragraphs)
        | Raise _ => ""
        end
      else if decide (file_type = "pdf") then
        match pdf_pages lib data with
        | Ok pages => concat_strings pages
        | Raise _ => ""
        end
      else if decide (file_type = "csv") then
        match read_csv lib Utf8 data with
        | Ok text => text
        | Raise _ =>
            match read_csv lib Latin1 data with
            | Ok text => text
            | Raise _ => ""
            end
        end
      else if decide (file_type = "xlsx") then
        match read_excel lib data with
        | Ok text => text
        | Raise _ => ""
        end
      else if decide (file_type = "txt") then
        read_text lib [Utf8; Latin1; Cp1252] data
      else ""
  end.

(** ** The retrieval gate ([analysis.py]) *)

Definition stop_words : gset string :=
  list_to_set
    ["the"; "a"; "an"; "and"; "or"; "but"; "in"; "on"; "at"; "to"; "for";
     "of"; "with"; "by"; "is"; "are"; "was"; "were"; "how"; "what"; "when";
     "where"; "why"; "do"; "does"; "did"; "can"; "will"; "would"; "should"].

(** [set(text.lower().split())]. *)
Definition word_set (text : string) : gset string :=
  list_to_set (PyStr.split (PyStr.lower text)).

Definition meaningful_terms (query : string) : gset string :=
  word_set query ∖ stop_words.

(** [a / b] for two [int]s with [0 <= a <= b]: the double nearest to the
    exact quotient, ties going to the even significand, written as the
    rational number that double is.  The quotient is shifted so that its
    integer part has the 53 bits of a significand (or stops at the 1074
    binary places of the smallest doubles) and is rounded there.  The caller
    never divides by zero. *)
Definition true_divide (a b : Z) : Q :=
  if (a =? 0)%Z then 0%Q
  else
    let s0 := (52 + Z.log2 b - Z.log2 a)%Z in
    let s1 := if (a * 2 ^ s0 / b <? 2 ^ 52)%Z then (s0 + 1)%Z else s0 in
    let s := Z.min s1 1074 in
    let m := (a * 2 ^ s / b)%Z in
    let r := (a * 2 ^ s mod b)%Z in
    let m := if (2 * r <? b)%Z then m
             else if (b <? 2 * r)%Z then (m + 1)%Z
             else if Z.even m then m else (m + 1)%Z in
    (m # Z.to_pos (2 ^ s))%Q.

(** [overlap_ratio >= threshold] for one chunk; [threshold] is the value of
    the float (or the integer) the caller passes, so the comparison of the
    two numbers is exact. *)
Definition overlap_reaches (meaningful : gset string) (threshold : Q)
    (chunk : Doc) : bool :=
  let chunk_words := word_set (page_content chunk) in
  let overlap := meaningful ∩ chunk_words in
  let overlap_ratio :=
    true_divide (Z.of_nat (size overlap)) (Z.of_nat (size meaningful)) in
  Qle_bool threshold overlap_ratio.

(** The [for chunk in chunks] loop with its early [return True]. *)
Fixpoint scan_chunks (meaningful : gset string) (threshold : Q)
    (chunks : list Doc) : bool :=
  match chunks with
  | [] => false
  | chunk :: rest =>
      if overlap_reaches meaningful threshold chunk then true
      else scan_chunks meaningful threshold rest
  end.

Definition validate_chunk_relevance (query : string) (chunks : list Doc)
    (threshold : Q) : bool :=
  match chunks with
  | [] => false
  | _ :: _ =>
      let meaningful_query_words := meaningful_terms query in
      if decide (meaningful_query_words = ∅) then true
      else scan_chunks meaningful_query_words threshold chunks
  end.

(** The default [threshold=0.3], which is the double nearest to 3/10, and
    the strict-mode value 0.25 of [main.py], which is a double. *)
Definition default_threshold : Q := 5404319552844595 # 18014398509481984.
Definition strict_threshold : Q := 1 # 4.

(** ** Query rewriting ([analysis.py]) *)

Definition enhance_query_for_better_retrieval (question : string) : string :=
  let question_lower := PyStr.lower question in
  let enhanced_terms := [] in
  let enhanced_terms :=
    if PyStr.any_in ["after"; "post"; "following"] question_lower
       && negb (PyStr.contains "incident" question_lower)
    then enhanced_terms ++ ["post-incident"] else enhanced_terms in
  let enhanced_terms :=
    if PyStr.any_in ["investigate"; "analysis"; "review"] question_lower
       && negb (PyStr.contains "investigation" question_lower)
    then enhanced_terms ++ ["investigation"] else enhanced_terms in
  match enhanced_terms with
  | first :: _ => question +:+ " " +:+ first
  | [] => question
  end.

(** ** The chunking engine ([create_optimized_chunks_for_large_docs]) *)

(** The arguments of one [RecursiveCharacterTextSplitter]. *)
Record splitter : Type := mkSplitter {
  separators : list string;
  chunk_size : nat;
  chunk_overlap : nat
}.

Definition nl : string := "
".
Definition nl2 : string := nl +:+ nl.
Definition nl3 : string := nl2 +:+ nl.
Definition nl4 : string := nl3 +:+ nl.

Definition large_splitters : list splitter :=
  [mkSplitter [nl4; nl3; nl2; nl; ". "; ", "; " "] 4000 400;
   mkSplitter [nl3; nl2; nl; ". "; ", "; " "] 2000 300;
   mkSplitter [nl2; nl; ". "; ", "; " "] 1200 200].

Definition medium_splitters : list splitter :=
  [mkSplitter [nl3; nl2; nl; ". "; ", "; " "] 1800 250;
   mkSplitter [nl2; nl; ". "; ", "; " "] 1000 150].

Definition small_splitter : splitter :=
  mkSplitter [nl3; nl2; nl; ". "; "; "; ", "; " "] 1000 150.

Definition aggressive_splitter : splitter :=
  mkSplitter [nl; ". "; "; "; ", "; " "; ""] 800 100.

(** [enumerate(l)]. *)
Definition enumerate {A : Type} (l : list A) : list (nat * A) :=
  combine (seq 0 (length l)) l.

Section ChunkEngine.
(** [RecursiveCharacterTextSplitter(...).split_text], from the text
    splitting library. *)
Variable split_text : splitter -> string -> list string.

(** [splitter.split_documents([doc])]: every piece of the text becomes a
    document with a copy of the metadata. *)
Definition split_documents (sp : splitter) (doc : Doc) : list Doc :=
  map (fun piece => mkDoc piece (metadata doc))
      (split_text sp (page_content doc)).

(** The dictionary display [{**doc_metadata, "chunk_type": ..., ...}]. *)
Definition enhanced_metadata (doc_metadata : Dict.t meta_value)
    (chunk_type : string) (j total : nat) (category : string)
    (chunk : Doc) : Dict.t meta_value :=
  Dict.update doc_metadata
    [("chunk_type", MStr chunk_type);
     ("chunk_index", MInt j);
     ("total_chunks", MInt total);
     ("doc_size_category", MStr category);
     ("chunk_size", MInt (String.length (page_content chunk)))].

(** The [for j, chunk in enumerate(chunks)] loop, appending to
    [all_chunks]. *)
Definition stamp_chunks (doc_metadata : Dict.t meta_value)
    (chunk_type category : string) (chunks : list Doc)
    (all_chunks : list Doc) : list Doc :=
  fold_left
    (fun all jc =>
       let '(j, chunk) := jc in
       all ++ [mkDoc (page_content chunk)
                     (enhanced_metadata doc_metadata chunk_type j
                        (length chunks) category chunk)])
    (enumerate chunks) all_chunks.

(** The [for i, splitter in enumerate(splitters)] loop of the large and
    medium branches. *)
Definition multi_tier (doc : Doc) (names : list string) (category : string)
    (splitters : list splitter) (all_chunks : list Doc) : list Doc :=
  fold_left
    (fun all isp =>
       let '(i, sp) := isp in
       let chunk_type := nth i names "" in
       let chunks := split_documents sp doc in
       stamp_chunks (metadata doc) chunk_type category chunks all)
    (enumerate splitters) all_chunks.

(** The body of the [for doc in documents] loop. *)
Definition chunk_document (all_chunks : list Doc) (doc : Doc) : list Doc :=
  let doc_text := page_content doc in
  let doc_metadata := metadata doc in
  let doc_size := Z.of_nat (String.length doc_text) in
  if (50000 <? doc_size)%Z then
    multi_tier doc ["broad"; "detailed"; "specific"] "large"
               large_splitters all_chunks
  else if (5000 <? doc_size)%Z then
    multi_tier doc ["standard"; "detailed"] "medium"
               medium_splitters all_chunks
  else
    let chunks := split_documents small_splitter doc in
    let chunks :=
      if (length chunks =? 1) && (1000 <? doc_size)%Z
      then split_documents aggressive_splitter doc
      else chunks in
    stamp_chunks doc_metadata "standard" "small" chunks all_chunks.

Definition create_optimized_chunks_for_large_docs (documents : list Doc)
    : list Doc :=
  fold_left chunk_document documents [].
End ChunkEngine.

(** ** The incremental sync ([load_documents_from_folder_incremental]) *)

Definition supported_extensions : list string :=
  [".pdf"; ".docx"; ".csv"; ".xlsx"; ".txt"].

(** The body of the walk over the folder: one file. *)
Definition scan_file (documents_folder : string)
    (current_files : Dict.t file_info) (f : file_entry) : Dict.t file_info :=
  let file_path := file_path_of documents_folder f in
  let file_ext := PyStr.lower (splitext_ext (fname f)) in
  if bool_decide (file_ext ∈ supported_extensions) then
    match get_file_hash (content f) with
    | Ok file_hash =>
        Dict.set file_path
          (mkInfo file_hash (fname f) file_ext (relpath (dir f)))
          current_files
    | Raise _ => current_files
    end
  else current_files.

Definition scan_folder (documents_folder : string) (files : list file_entry)
    : Dict.t file_info :=
  fold_left (scan_file documents_folder) files [].

(** The test of the [new_or_changed_files] loop. *)
Definition is_new_or_changed (processed_files_info : Dict.t file_info)
    (file_path : string) (info : file_info) : bool :=
  match Dict.get file_path processed_files_info with
  | None => true
  | Some recorded => negb (String.eqb (hash recorded) (hash info))
  end.

Definition new_or_changed_files (current_files : Dict.t file_info)
    (processed_files_info : Dict.t file_info) : list string :=
  fold_left
    (fun selected kv =>
       if is_new_or_changed processed_files_info (fst kv) (snd kv)
       then selected ++ [fst kv] else selected)
    current_files [].

(** What a path of the folder reads as. *)
Definition read_file (documents_folder : string) (files : list file_entry)
    (file_path : string) : option (list byte) :=
  match
    find (fun f => bool_decide (file_path_of documents_folder f = file_path))
         files
  with
  | Some f => content f
  | None => None
  end.

Record processing_info : Type := mkProcessing {
  total_documents : nat;
  new_documents : nat;
  reused_documents : nat
}.

(** What one call returns and leaves behind: the three returned values
    ([info] is [None] for the empty dictionary of the early return), the
    paths handed to the extractor, in order, and the persisted store. *)
Record sync_outcome : Type := mkOutcome {
  returned_documents : list Doc;
  final_vectorstore : option (list Doc);
  info : option processing_info;
  selected_files : list string;
  extracted_files : list string;
  store_after : store
}.

Section Sync.
(** The extractor as the sync calls it; a [Raise] is caught by the sync's
    own [except].  The chunking library is as in [ChunkEngine]. *)
Variable extract : string -> option (list byte) -> result string.
Variable split_text : splitter -> string -> list string.

(** The body of [for file_path in new_or_changed_files]. *)
Definition process_file (documents_folder : string)
    (files : list file_entry) (current_files : Dict.t file_info)
    (new_docs : list Doc) (file_path : string) : list Doc :=
  match extract file_path (read_file documents_folder files file_path) with
  | Ok document_text =>
      if PyStr.strip_nonempty document_text then
        match Dict.get file_path current_files with
        | Some file_info =>
            new_docs ++
              [mkDoc document_text
                 [("source", MStr (name file_info));
                  ("file_path", MStr file_path);
                  ("file_type", MStr (extension file_info));
                  ("folder", MStr (folder file_info))]]
        | None => new_docs
        end
      else new_docs
  | Raise _ => new_docs
  end.

(** The sync over an existing documents folder. *)
Definition sync_folder (documents_folder : string)
    (files : list file_entry) (st : store) : sync_outcome :=
  let existing_vectorstore := load_vectorstore st in
  let processed_files_info := load_processed_files_info st in
  let current_files := scan_folder documents_folder files in
  let selected := new_or_changed_files current_files processed_files_info in
  let new_docs :=
    fold_left (process_file documents_folder files current_files)
              selected [] in
  let total_docs := length current_files in
  let new_count := length new_docs in
  let report := mkProcessing total_docs new_count (total_docs - new_count) in
  match new_docs with
  | _ :: _ =>
      let new_doc_chunks :=
        create_optimized_chunks_for_large_docs split_text new_docs in
      let final :=
        match existing_vectorstore with
        | Some index => index ++ new_doc_chunks
        | None => new_doc_chunks
        end in
      mkOutcome new_docs (Some final) (Some report) selected selected
        (mkStore (Some (Dict.update processed_files_info current_files))
                 (Some final))
  | [] =>
      mkOutcome new_docs existing_vectorstore (Some report) selected
        selected st
  end.

(** [corpus] is [None] when the documents folder does not exist: the
    folder is created and the call returns at once. *)
Definition load_documents_from_folder_incremental
    (documents_folder : string) (corpus : option (list file_entry))
    (st : store) : sync_outcome :=
  match corpus with
  | None => mkOutcome [] None None [] [] st
  | Some files => sync_folder documents_folder files st
  end.
End Sync.

(** ** Upload intake ([process_uploaded_files]) *)

(** One uploaded file: its name and its bytes. *)
Record uploaded_file : Type := mkUpload {
  up_name : string;
  up_buffer : list byte
}.

(** [open(file_path, "wb").write(data)] in the documents folder itself: a
    file of that name is overwritten, a new one is added. *)
Fixpoint write_file (now : Z) (file : string) (data : list byte)
    (files : list file_entry) : list file_entry :=
  match files with
  | [] => [mkFile [] file (Some data) now]
  | f :: rest =>
      if bool_decide (dir f = [] ∧ fname f = file)
      then mkFile [] file (Some data) now :: rest
      else f :: write_file now file data rest
  end.

(** What the call returns and leaves behind. *)
Record upload_outcome : Type := mkUploaded {
  processed_count : nat;
  upload_vectorstore : option (list Doc);
  saved : list string;
  files_after : list file_entry;
  upload_store_after : store
}.

Section Upload.
Variable extract : string -> option (list byte) -> result string.
Variable split_text : splitter -> string -> list string.

(** The state of the [for uploaded_file in uploaded_files] loop: the
    folder, [saved_files] and [processed_documents]. *)
Definition upload_state : Type :=
  (list file_entry * list string * list Doc)%type.

Definition upload_one (documents_folder : string) (now : Z)
    (state : upload_state) (uploaded : uploaded_file) : upload_state :=
  let '(files, saved_files, processed_documents) := state in
  let file_path := path_join documents_folder (up_name uploaded) in
  let files := write_file now (up_name uploaded) (up_buffer uploaded) files in
  let saved_files := saved_files ++ [file_path] in
  match extract file_path (read_file documents_folder files file_path) with
  | Ok document_text =>
      if PyStr.strip_nonempty document_text then
        (files, saved_files,
         processed_documents ++
           [mkDoc document_text
              [("source", MStr (up_name uploaded));
               ("file_path", MStr file_path);
               ("file_type",
                MStr (PyStr.lower (splitext_ext (up_name uploaded))));
               ("folder", MStr "")]])
      else (files, saved_files, processed_documents)
  | Raise _ => (files, saved_files, processed_documents)
  end.

(** The [for file_path in saved_files] loop that records the saved files
    in the ledger; a failing [get_file_hash] is not caught there. *)
Fixpoint record_saved (documents_folder : string) (files : list file_entry)
    (saved_files : list string) (processed_files_info : Dict.t file_info)
    : result (Dict.t file_info) :=
  match saved_files with
  | [] => Ok processed_files_info
  | file_path :: rest =>
      match get_file_hash (read_file documents_folder files file_path) with
      | Ok file_hash =>
          record_saved documents_folder files rest
            (Dict.set file_path
               (mkInfo file_hash (basename file_path)
                  (PyStr.lower (splitext_ext file_path)) "")
               processed_files_info)
      | Raise msg => Raise msg
      end
  end.

Definition process_uploaded_files (documents_folder : string) (now : Z)
    (uploaded_files : list uploaded_file) (files : list file_entry)
    (st : store) : result upload_outcome :=
  let '(files, saved_files, processed_documents) :=
    fold_left (upload_one documents_folder now) uploaded_files
              (files, [], []) in
  match processed_documents with
  | _ :: _ =>
      let doc_chunks :=
        create_optimized_chunks_for_large_docs split_text
          processed_documents in
      let final_vectorstore :=
        match load_vectorstore st with
        | Some index => index ++ doc_chunks
        | None => doc_chunks
        end in
      match
        record_saved documents_folder files saved_files
          (load_processed_files_info st)
      with
      | Ok processed_files_info =>
          Ok (mkUploaded (length processed_documents)
                (Some final_vectorstore) saved_files files
                (mkStore (Some processed_files_info)
                         (Some final_vectorstore)))
      | Raise msg => Raise msg
      end
  | [] =>
      Ok (mkUploaded 0 (load_vectorstore st) saved_files files st)
  end.
End Upload.

(** ** Slices of a text *)

(** [s[:n]]. *)
Fixpoint str_take (n : nat) (s : string) : string :=
  match n, s with
  | S k, String c r => String c (str_take k r)
  | _, _ => ""
  end.

Fixpoint str_drop (n : nat) (s : string) : string :=
  match n, s with
  | S k, String _ r => str_drop k r
  | _, _ => s
  end.

(** [s[-n:]] for a positive [n]: the last [n] characters, or all of [s]. *)
Definition str_last (n : nat) (s : string) : string :=
  str_drop (String.length s - n) s.

(** [metadata.get(key, default)] with a string default. *)
Definition meta_get (md : Dict.t meta_value) (key default : string)
  : meta_value :=
  match Dict.get key md with
  | Some v => v
  | None => MStr default
  end.

(** ** The debug log ([log_retrieved_chunks_for_debugging]) *)

Module Debug.

(** One entry of [chunk_details]. *)
Record chunk_info : Type := mkInfo {
  chunk_number : nat;
  source : meta_value;
  chunk_type : meta_value;
  chunk_index : meta_value;
  size : nat;
  file_path : meta_value;
  content_preview : string;
  full_content : string
}.

(** The dictionary written to the log file (its time stamp apart). *)
Record debug_log : Type := mkLog {
  original_query : string;
  enhanced_query : option string;
  total_chunks : nat;
  chunks : list chunk_info
}.

Definition preview (content : string) : string :=
  if 400 <? String.length content
  then str_take 200 content +:+ "..." +:+ str_last 200 content
  else content.

(** The body of [for i, chunk in enumerate(chunks, 1)]. *)
Definition describe (i : nat) (chunk : Doc) : chunk_info :=
  let metadata := metadata chunk in
  let content := page_content chunk in
  mkInfo i
    (meta_get metadata "source" "Unknown")
    (meta_get metadata "chunk_type" "standard")
    (meta_get metadata "chunk_index" "N/A")
    (String.length content)
    (meta_get metadata "file_path" "N/A")
    (preview content)
    content.

(** What the call returns, and the log it writes when asked to. *)
Definition log_retrieved_chunks_for_debugging (query : string)
    (retrieved_chunks : list Doc) (enhanced : option string)
    (log_to_file : bool) : list chunk_info * option debug_log :=
  let chunk_details :=
    fold_left
      (fun details ic => details ++ [describe (fst ic) (snd ic)])
      (combine (seq 1 (length retrieved_chunks)) retrieved_chunks) [] in
  (chunk_details,
   if log_to_file
   then Some (mkLog query enhanced (length retrieved_chunks) chunk_details)
   else None).

End Debug.

(** ** The coverage analysis ([analyze_chunk_coverage]) *)

#[global] Instance meta_value_eq_dec : EqDecision meta_value.
Proof. solve_decision. Defined.

Module Coverage.

(** A dictionary of counters keyed by metadata values. *)
Definition counters : Type := list (meta_value * nat).

(** [if k not in d: d[k] = 0] followed by [d[k] += 1]. *)
Fixpoint count_up (k : meta_value) (d : counters) : counters :=
  match d with
  | [] => [(k, 1)]
  | (k', n) :: r =>
      if decide (k = k') then (k', n + 1) :: r else (k', n) :: count_up k r
  end.

Fixpoint count_of (k : meta_value) (d : counters) : nat :=
  match d with
  | [] => 0
  | (k', n) :: r => if decide (k = k') then n else count_of k r
  end.

Definition is_str (v : meta_value) : bool :=
  match v with MStr _ => true | MInt _ => false end.

Definition is_int (v : meta_value) : bool :=
  match v with MStr _ => false | MInt _ => true end.

(** [sorted(d.items())] compares the keys: it raises a [TypeError] exactly
    when a string key meets an integer key. *)
Definition sortable (d : counters) : bool :=
  forallb (fun kv => is_str (fst kv)) d || forallb (fun kv => is_int (fst kv)) d.

Record coverage : Type := mkCoverage {
  sources : counters;
  chunk_types : counters;
  total_chars : nat;
  avg_chunk_size : Q
}.

(** The body of [for chunk in chunks]. *)
Definition tally (state : counters * counters) (chunk : Doc)
  : counters * counters :=
  let '(sources, chunk_types) := state in
  let source := meta_get (metadata chunk) "source" "Unknown" in
  let chunk_type := meta_get (metadata chunk) "chunk_type" "standard" in
  (count_up source sources, count_up chunk_type chunk_types).

Definition analyze_chunk_coverage (chunks : list Doc) : result coverage :=
  let '(sources, chunk_types) := fold_left tally chunks ([], []) in
  if sortable sources then
    if sortable chunk_types then
      let total_chars :=
        fold_left (fun total chunk => total + String.length (page_content chunk))
                  chunks 0 in
      let avg_chunk_size :=
        match chunks with
        | [] => 0%Q
        | _ :: _ => (Z.of_nat total_chars # Pos.of_nat (length chunks))%Q
        end in
      Ok (mkCoverage sources chunk_types total_chars avg_chunk_size)
    else Raise "TypeError"
  else Raise "TypeError".

End Coverage.

(** ** The chat handler ([main.py]) *)

(** What the conversation chain returns: the answer of the language model
    and, when the key is present, the retrieved chunks. *)
Record response : Type := mkResponse {
  answer : string;
  source_documents : option (list Doc)
}.

(** The toggles of the session; [None] is a key that is not set, for which
    [st.session_state.get(key, True)] answers [True]. *)
Record session : Type := mkSession {
  strict_mode : option bool;
  show_chunks : option bool
}.

Definition session_get (o : option bool) : bool :=
  match o with
  | Some b => b
  | None => true
  end.

Definition refusal : string :=
  "No related information is present in the document.".

(** What the handler shows: the answer text, or the error text of the
    [except] branch (rendered after a cross mark and [Error:]). *)
Inductive reply : Type :=
| Answer (text : string)
| ErrorReply (msg : string).

(** What one question leaves on the page and in the logs. *)
Record chat_outcome : Type := mkChat {
  assistant_response : reply;
  relevance_warning : bool;
  logged_chunks : list Doc;
  displayed_chunks : list Doc
}.

(** [response["source_documents"]] when the key is present and the list is
    not empty. *)
Definition retrieved (r : response) : list Doc :=
  match source_documents r with
  | Some chunks => chunks
  | None => []
  end.

Section Chat.
(** [st.session_state.conversation_chain]: retrieval and the call of the
    language model. *)
Variable conversation_chain : string -> result response.

Definition answer_question (ss : session) (user_input : string)
    : chat_outcome :=
  let enhanced_query := enhance_query_for_better_retrieval user_input in
  match conversation_chain enhanced_query with
  | Raise e => mkChat (ErrorReply e) false [] []
  | Ok r =>
      match retrieved r with
      | [] => mkChat (Answer refusal) false [] []
      | (_ :: _) as chunks =>
          let '(assistant_response, warned) :=
            if session_get (strict_mode ss) then
              if negb (validate_chunk_relevance user_input chunks
                         strict_threshold)
              then (refusal, true)
              else (answer r, false)
            else (answer r, false) in
          mkChat (Answer assistant_response) warned chunks
            (if session_get (show_chunks ss) then chunks else [])
      end
  end.
End Chat.

(** ** Vocabulary of the statements *)

(** [w] occurs in [s]. *)
Definition occurs (w s : string) : Prop :=
  exists pre post, s = pre +:+ w +:+ post.

(** The word being read ends at the end of the text or at white space. *)
Definition word_end (post : string) : Prop :=
  post = "" \/ exists c rest, post = String c rest /\ PyStr.isspace c = true.

(** A word starts at the start of the text or after white space. *)
Definition word_start (pre : string) : Prop :=
  pre = "" \/ exists front c, pre = front +:+ String c "" /\ PyStr.isspace c = true.

(** A text without white space. *)
Fixpoint no_space (s : string) : bool :=
  match s with
  | EmptyString => true
  | String c r => negb (PyStr.isspace c) && no_space r
  end.

(** The shift that leaves 53 significant bits. *)
Definition shift (a b : Z) : Z :=
  let s0 := (52 + Z.log2 b - Z.log2 a)%Z in
  if (a * 2 ^ s0 / b <? 2 ^ 52)%Z then (s0 + 1)%Z else s0.

(** Rounding to the nearest integer, ties to even, of [n / b]. *)
Definition nearest (n b : Z) : Z :=
  let m := (n / b)%Z in
  let r := (n mod b)%Z in
  if (2 * r <? b)%Z then m
  else if (b <? 2 * r)%Z then (m + 1)%Z
  else if Z.even m then m else (m + 1)%Z.

(** The overlap ratio the gate computes for one chunk: a double. *)
Definition overlap_quotient (meaningful : gset string) (chunk : Doc) : Q :=
  true_divide
    (Z.of_nat (size (meaningful ∩ word_set (page_content chunk))))
    (Z.of_nat (size meaningful)).

(** The overlap ratio of one chunk as an exact fraction, before rounding. *)
Definition overlap_ratio (meaningful : gset string) (chunk : Doc) : Q :=
  (inject_Z (Z.of_nat (size (meaningful ∩ word_set (page_content chunk))))
   / inject_Z (Z.of_nat (size meaningful)))%Q.

(** The question mentions one of the words or not, as a proposition. *)
Definition mentions (words : list string) (question : string) : Prop :=
  exists w, In w words /\ occurs w (PyStr.lower question).

(** The two rules of the rewrite. *)
Definition post_incident_rule (question : string) : Prop :=
  mentions ["after"; "post"; "following"] question
  /\ ~ occurs "incident" (PyStr.lower question).

Definition investigation_rule (question : string) : Prop :=
  mentions ["investigate"; "analysis"; "review"] question
  /\ ~ occurs "investigation" (PyStr.lower question).

(** The file has one of the supported extensions. *)
Definition supported (f : file_entry) : Prop :=
  PyStr.lower (splitext_ext (fname f)) ∈ supported_extensions.

(** The ledger entry the walk computes for one file, when it computes one. *)
Definition entry_of (f : file_entry) : option file_info :=
  let file_ext := PyStr.lower (splitext_ext (fname f)) in
  if bool_decide (file_ext ∈ supported_extensions) then
    match content f with
    | Some data =>
        Some (mkInfo (MD5.hexdigest data) (fname f) file_ext (relpath (dir f)))
    | None => None
    end
  else None.

(** Two listings of one file that differ at most in the modification time. *)
Definition same_but_mtime (f g : file_entry) : Prop :=
  dir f = dir g /\ fname f = fname g /\ content f = content g.

(** The size category of a document. *)
Definition size_category (doc : Doc) : string :=
  let n := Z.of_nat (String.length (page_content doc)) in
  if (50000 <? n)%Z then "large"
  else if (5000 <? n)%Z then "medium" else "small".

(** One chunking of a document: the pieces the splitter cuts its text
    into, each with the metadata of the document and the five stamps. *)
Definition tier_chunks (split_text : splitter -> string -> list string)
    (doc : Doc) (chunk_type category : string) (sp : splitter) : list Doc :=
  let pieces := split_text sp (page_content doc) in
  map (fun jp =>
         mkDoc (snd jp)
           (Dict.update (metadata doc)
              [("chunk_type", MStr chunk_type);
               ("chunk_index", MInt (fst jp));
               ("total_chunks", MInt (length pieces));
               ("doc_size_category", MStr category);
               ("chunk_size", MInt (String.length (snd jp)))]))
      (enumerate pieces).

(** What the engine adds for one document. *)
Definition chunks_of (split_text : splitter -> string -> list string)
    (doc : Doc) : list Doc :=
  chunk_document split_text [] doc.

(** ** Collaborators to run the embedding with *)

(** A text library that reads ASCII as UTF-8 and any bytes as Latin-1 or
    cp1252, character for byte, and has no parser for the other formats. *)
Definition latin1_text (data : list byte) : string :=
  String.string_of_list_byte data.

Definition is_ascii (data : list byte) : bool :=
  forallb (fun b => (Byte.to_N b <? 128)%N) data.

Definition sample_library : library :=
  mkLibrary
    (fun _ => Raise "no parser")
    (fun _ => Raise "no parser")
    (fun _ _ => Raise "no parser")
    (fun _ => Raise "no parser")
    (fun e data =>
       match e with
       | Utf8 => if is_ascii data then Ok (latin1_text data)
                 else Raise "UnicodeDecodeError"
       | Latin1 | Cp1252 => Ok (latin1_text data)
       end).

Definition sample_extract (file_path : string) (file : option (list byte))
  : result string :=
  Ok (extract_text_from_file_path sample_library file_path file).

(** A splitter that cuts the text every [chunk_size] characters. *)
Definition fixed_width_split (sp : splitter) (text : string) : list string :=
  map String.string_of_list_ascii
      (groups (String.length text) (chunk_size sp)
              (String.list_ascii_of_string text)).

(** The bytes of a text. *)
Definition bytes_of (text : string) : list byte :=
  String.list_byte_of_string text.

(** The bytes written as lowercase hexadecimal digits. *)
Definition hex_digit (c : ascii) : N :=
  let n := N_of_ascii c in
  if ((48 <=? n) && (n <=? 57))%N then (n - 48)%N
  else if ((97 <=? n) && (n <=? 102))%N then (n - 87)%N
  else 0%N.

Fixpoint bytes_of_hex (s : string) : list byte :=
  match s with
  | String a (String b r) =>
      match Byte.of_N (16 * hex_digit a + hex_digit b) with
      | Some x => x :: bytes_of_hex r
      | None => bytes_of_hex r
      end
  | _ => []
  end.

(** Two different files of 128 bytes with one MD5 digest (Wang and Yu,
    2004). *)
Definition collision_a : list byte :=
  bytes_of_hex
    ("d131dd02c5e6eec4693d9a0698aff95c2fcab58712467eab4004583eb8fb7f89"
     +:+ "55ad340609f4b30283e488832571415a085125e8f7cdc99fd91dbdf280373c5b"
     +:+ "d8823e3156348f5bae6dacd436c919c6dd53e2b487da03fd02396306d248cda0"
     +:+ "e99f33420f577ee8ce54b67080a80d1ec69821bcb6a8839396f9652b6ff72a70").

Definition collision_b : list byte :=
  bytes_of_hex
    ("d131dd02c5e6eec4693d9a0698aff95c2fcab50712467eab4004583eb8fb7f89"
     +:+ "55ad340609f4b30283e4888325f1415a085125e8f7cdc99fd91dbd7280373c5b"
     +:+ "d8823e3156348f5bae6dacd436c919c6dd53e23487da03fd02396306d248cda0"
     +:+ "e99f33420f577ee8ce54b67080280d1ec69821bcb6a8839396f965ab6ff72a70").

(** The store before anything was indexed. *)
Definition empty_store : store := mkStore None None.

(** A text of [n] letters. *)
Fixpoint letters (n : nat) : string :=
  match n with
  | O => ""
  | S k => String "a" (letters k)
  end.

(** Documents of the three size categories, as the sync builds them. *)
Definition sample_document (n : nat) : Doc :=
  mkDoc (letters n)
    [("source", MStr "runbook.txt"); ("file_path", MStr "docs/runbook.txt");
     ("file_type", MStr ".txt"); ("folder", MStr ".")].

(** A conversation chain that retrieves one passage about password
    spraying and answers from it, whatever the question. *)
Definition spray_chunks : list Doc :=
  [mkDoc "Password spray: one password is tried on many accounts" []].

Definition spray_chain (question : string) : result response :=
  Ok (mkResponse "Password spraying tries one password on many accounts."
        (Some spray_chunks)).

(** ** Clearing the store ([clear_vectorstore_and_cache]) *)

(** The vectorstore directory is removed when it exists, the ledger file is
    overwritten with the empty dictionary when it exists; the answer is
    whether anything was cleared. *)
Definition clear_vectorstore_and_cache (st : store) : bool * store :=
  let cleared_index :=
    match vectorstore_dir st with Some _ => true | None => false end in
  let cleared_ledger :=
    match ledger_file st with Some _ => true | None => false end in
  (cleared_index || cleared_ledger,
   mkStore (match ledger_file st with Some _ => Some [] | None => None end)
           None).

(** ** More vocabulary *)

(** A text without the character [c]. *)
Fixpoint lacks (c : ascii) (s : string) : bool :=
  match s with
  | EmptyString => true
  | String x r => negb (bool_decide (x = c)) && lacks c r
  end.

(** The splitters the engine uses for a document, in order. *)
Definition splitters_for (split_text : splitter -> string -> list string)
    (doc : Doc) : list splitter :=
  let n := Z.of_nat (String.length (page_content doc)) in
  if (50000 <? n)%Z then large_splitters
  else if (5000 <? n)%Z then medium_splitters
  else if (length (split_text small_splitter (page_content doc)) =? 1)
          && (1000 <? n)%Z
       then [aggressive_splitter] else [small_splitter].

(** The document the sync builds for a file it read as [text]. *)
Definition sync_document (file_path text : string) (i : file_info) : Doc :=
  mkDoc text
    [("source", MStr (name i)); ("file_path", MStr file_path);
     ("file_type", MStr (extension i)); ("folder", MStr (folder i))].

(** The index as a list: no index holds no chunk. *)
Definition index_chunks (index : option (list Doc)) : list Doc :=
  match index with
  | Some chunks => chunks
  | None => []
  end.

(** The two tests of the query rewrite, as the code evaluates them. *)
Definition post_incident_test (question : string) : bool :=
  PyStr.any_in ["after"; "post"; "following"] (PyStr.lower question)
  && negb (PyStr.contains "incident" (PyStr.lower question)).

Definition investigation_test (question : string) : bool :=
  PyStr.any_in ["investigate"; "analysis"; "review"] (PyStr.lower question)
  && negb (PyStr.contains "investigation" (PyStr.lower question)).

(** The folder after the files of a batch were written, one after the
    other. *)
Definition write_all (now : Z) (uploads : list uploaded_file)
    (files : list file_entry) : list file_entry :=
  fold_left (fun fs u => write_file now (up_name u) (up_buffer u) fs)
            uploads files.

(** The file is the one an upload of that name overwrites. *)
Definition overwritten_by (f : file_entry) (u : uploaded_file) : Prop :=
  dir f = [] /\ fname f = up_name u.

(** The source and the chunk type the coverage analysis reads off a chunk. *)
Definition source_of (chunk : Doc) : meta_value :=
  meta_get (metadata chunk) "source" "Unknown".

Definition chunk_type_of (chunk : Doc) : meta_value :=
  meta_get (metadata chunk) "chunk_type" "standard".

(** The values are all strings, or all integers. *)
Definition uniform (values : list meta_value) : bool :=
  forallb Coverage.is_str values || forallb Coverage.is_int values.

(** * Properties *)

(** ** Python strings *)

Module PyStrFacts.
Import PyStr.

Lemma append_assoc (a b c : string) : (a +:+ b) +:+ c = a +:+ (b +:+ c).
Proof. induction a as [|x a IH]; simpl; [reflexivity | now rewrite IH]. Qed.

Lemma append_empty_r (a : string) : a +:+ "" = a.
Proof. induction a as [|x a IH]; simpl; [reflexivity | now rewrite IH]. Qed.

Lemma isspace_lower_char (c : ascii) : isspace (lower_char c) = isspace c.
Proof. destruct c as [[] [] [] [] [] [] [] []]; reflexivity. Qed.

Lemma lower_app (a b : string) : lower (a +:+ b) = lower a +:+ lower b.
Proof. induction a as [|x a IH]; simpl; [reflexivity | now rewrite IH]. Qed.

Lemma lower_length (a : string) : String.length (lower a) = String.length a.
Proof. induction a as [|x a IH]; simpl; [reflexivity | now rewrite IH]. Qed.

(** *** Substrings *)

Lemma startswith_spec (p s : string) :
  startswith p s = true <-> exists post, s = p +:+ post.
Proof.
  revert s; induction p as [|a p IH]; intros s; simpl.
  - split; [intros _; now exists s | reflexivity].
  - destruct s as [|b s].
    + split; [discriminate | intros [post H]; discriminate].
    + rewrite andb_true_iff, IH. split.
      * intros [Hab [post ->]]. apply Ascii.eqb_eq in Hab as ->.
        now exists post.
      * intros [post H]. injection H as -> ->. split.
        -- apply Ascii.eqb_refl.
        -- now exists post.
Qed.

Lemma contains_spec (w s : string) : contains w s = true <-> occurs w s.
Proof.
  induction s as [|b s IH].
  - simpl. rewrite orb_false_r, startswith_spec. split.
    + intros [post H]. now exists "", post.
    + intros [[|x pre] [post H]]; [now exists post | discriminate].
  - cbn [contains]. rewrite orb_true_iff, startswith_spec, IH. split.
    + intros [[post H] | [pre [post H]]].
      * now exists "", post.
      * exists (String b pre), post. simpl. now rewrite H.
    + intros [[|x pre] [post H]].
      * left. now exists post.
      * right. simpl in H. injection H as -> ->. now exists pre, post.
Qed.

Lemma contains_false (w s : string) : contains w s = false <-> ~ occurs w s.
Proof.
  rewrite <- contains_spec. destruct (contains w s); split; intros H;
    try reflexivity; try discriminate; try (now intros ?).
  now contradiction H.
Qed.

Lemma any_in_spec (ws : list string) (s : string) :
  any_in ws s = true <-> exists w, In w ws /\ occurs w s.
Proof.
  unfold any_in. rewrite existsb_exists.
  split; intros [w [Hin H]]; exists w; split; auto; now apply contains_spec.
Qed.

(** *** Words *)

(** Everything before a white-space character is irrelevant to the words
    read after it. *)
Lemma split_from_after_space (pre cur : string) (c : ascii) (s x : string) :
  isspace c = true ->
  In x (split_from "" s) ->
  In x (split_from cur (pre +:+ String c s)).
Proof.
  intros Hc Hx. revert cur.
  induction pre as [|a pre IH]; intros cur; simpl.
  - rewrite Hc. destruct (decide (cur = "")); [assumption | now right].
  - destruct (isspace a).
    + destruct (decide (cur = "")); [apply IH | right; apply IH].
    + apply IH.
Qed.

Lemma word_start_lower (pre : string) :
  word_start pre -> word_start (lower pre).
Proof.
  intros [-> | (front & c & -> & Hc)]; [now left | right].
  exists (lower front), (lower_char c). rewrite lower_app. simpl.
  split; [reflexivity | now rewrite isspace_lower_char].
Qed.

Lemma word_end_lower (post : string) : word_end post -> word_end (lower post).
Proof.
  intros [-> | (c & rest & -> & Hc)]; [now left | right].
  exists (lower_char c), (lower rest). simpl.
  split; [reflexivity | now rewrite isspace_lower_char].
Qed.

Lemma no_space_snoc (cur : string) (c : ascii) :
  no_space cur = true -> isspace c = false ->
  no_space (cur +:+ String c "") = true.
Proof.
  intros Hcur Hc. induction cur as [|a cur IH]; simpl in *.
  - now rewrite Hc.
  - apply andb_true_iff in Hcur as [-> H]. simpl. now apply IH.
Qed.

Lemma split_from_words (s cur x : string) :
  no_space cur = true ->
  In x (split_from cur s) -> x <> "" /\ no_space x = true.
Proof.
  revert cur. induction s as [|c s IH]; intros cur Hcur; simpl.
  - destruct (decide (cur = "")) as [->|Hne]; intros Hin.
    + destruct Hin.
    + destruct Hin as [<- | []]. auto.
  - destruct (isspace c) eqn:Hc.
    + destruct (decide (cur = "")).
      * now apply IH.
      * intros [<- | H]; [auto | now apply (IH "")].
    + apply IH. now apply no_space_snoc.
Qed.

Lemma split_words (s x : string) :
  In x (split s) -> x <> "" /\ no_space x = true.
Proof. now apply split_from_words. Qed.

Lemma no_space_app (a b : string) :
  no_space (a +:+ b) = no_space a && no_space b.
Proof.
  induction a as [|x a IH]; simpl; [reflexivity|].
  now rewrite IH, andb_assoc.
Qed.

(** The word being read, completed by a run without white space that ends
    at a word end, is one of the words. *)
Lemma split_from_reads_word (w cur post : string) :
  no_space w = true -> word_end post -> cur +:+ w <> "" ->
  In (cur +:+ w) (split_from cur (w +:+ post)).
Proof.
  revert cur. induction w as [|a w IH]; intros cur Hw Hpost Hne.
  - rewrite append_empty_r in *. simpl.
    destruct Hpost as [-> | (c & rest & -> & Hc)]; simpl.
    + destruct (decide (cur = "")); [contradiction | now left].
    + rewrite Hc. destruct (decide (cur = "")); [contradiction | now left].
  - simpl in Hw. apply andb_true_iff in Hw as [Ha Hw].
    apply negb_true_iff in Ha. simpl. rewrite Ha.
    replace (cur +:+ String a w) with ((cur +:+ String a "") +:+ w)
      by now rewrite append_assoc.
    apply IH; [exact Hw | exact Hpost|].
    rewrite append_assoc. simpl. now destruct cur.
Qed.

(** The words of a text are its maximal runs without white space. *)
Lemma split_from_inv (s cur w : string) :
  In w (split_from cur s) ->
  (exists run post,
      s = run +:+ post /\ w = cur +:+ run /\ no_space run = true
      /\ word_end post)
  \/ (exists front c post,
        s = (front +:+ String c "") +:+ w +:+ post
        /\ PyStr.isspace c = true /\ word_end post).
Proof.
  revert cur. induction s as [|c s IH]; intros cur; simpl.
  - destruct (decide (cur = "")); intros Hin; [destruct Hin|].
    destruct Hin as [<- | []]. left. exists "", "".
    split; [reflexivity|]. split; [now rewrite append_empty_r|].
    split; [reflexivity | now left].
  - destruct (isspace c) eqn:Hc.
    + intros Hin.
      assert (Hrest : In w (split_from "" s) ->
                (exists front c0 post,
                    String c s = (front +:+ String c0 "") +:+ w +:+ post
                    /\ isspace c0 = true /\ word_end post)).
      { intros Hw. apply IH in Hw
          as [(run & post & -> & -> & Hrun & Hpost)
             | (front & c0 & post & -> & Hc0 & Hpost)].
        - exists "", c, post. simpl. auto.
        - exists (String c front), c0, post. simpl. auto. }
      destruct (decide (cur = "")); [right; auto|].
      destruct Hin as [<- | Hin]; [|right; auto].
      left. exists "", (String c s).
      split; [reflexivity|]. split; [now rewrite append_empty_r|].
      split; [reflexivity|]. right. now exists c, s.
    + intros Hin. apply IH in Hin
        as [(run & post & -> & -> & Hrun & Hpost)
           | (front & c0 & post & -> & Hc0 & Hpost)].
      * left. exists (String c run), post.
        split; [reflexivity|]. split; [now rewrite append_assoc|].
        split; [simpl; now rewrite Hc, Hrun | exact Hpost].
      * right. exists (String c front), c0, post. simpl. auto.
Qed.

Lemma split_spec (s w : string) :
  In w (split s)
  <-> exists pre post,
        s = pre +:+ w +:+ post /\ w <> "" /\ no_space w = true
        /\ word_start pre /\ word_end post.
Proof.
  split.
  - intros Hin. destruct (split_words s w Hin) as [Hne Hns].
    apply split_from_inv in Hin
      as [(run & post & -> & -> & Hrun & Hpost)
         | (front & c & post & -> & Hc & Hpost)].
    + exists "", post. simpl. repeat split; auto. now left.
    + exists (front +:+ String c ""), post. repeat split; auto.
      right. now exists front, c.
  - intros (pre & post & -> & Hne & Hns & Hpre & Hpost).
    assert (Hw : In w (split_from "" (w +:+ post)))
      by now apply (split_from_reads_word w "" post).
    destruct Hpre as [-> | (front & c & -> & Hc)]; [exact Hw|].
    rewrite append_assoc. simpl.
    now apply split_from_after_space.
Qed.
End PyStrFacts.

(** ** The quotient of two counts as a double *)

Module FloatFacts.
#[local] Open Scope Z_scope.

Lemma true_divide_nearest (a b : Z) :
  a <> 0 ->
  true_divide a b
  = (nearest (a * 2 ^ Z.min (shift a b) 1074) b
     # Z.to_pos (2 ^ Z.min (shift a b) 1074))%Q.
Proof.
  intros Ha. unfold true_divide, nearest, shift.
  destruct (Z.eqb_spec a 0) as [->|_]; [now contradiction Ha | reflexivity].
Qed.

Lemma pow2_succ (x : Z) : 0 <= x -> 2 ^ (x + 1) = 2 * 2 ^ x.
Proof. intros Hx. now rewrite Z.pow_add_r, Z.mul_comm by lia. Qed.

Lemma shift_normal (a b : Z) :
  0 < a <= b ->
  52 <= shift a b /\ 2 ^ 52 * b <= a * 2 ^ shift a b < 2 ^ 53 * b.
Proof.
  intros [Ha Hab]. unfold shift.
  assert (Hb : 0 < b) by lia.
  pose proof (Z.log2_le_mono a b Hab) as Hlog.
  pose proof (Z.log2_nonneg a) as Hla.
  destruct (Z.log2_spec a Ha) as [Ha1 Ha2].
  destruct (Z.log2_spec b Hb) as [Hb1 Hb2].
  set (la := Z.log2 a) in *. set (lb := Z.log2 b) in *.
  set (s0 := 52 + lb - la) in *.
  assert (Hs0 : 2 ^ s0 * 2 ^ la = 2 ^ 52 * 2 ^ lb).
  { rewrite <- !Z.pow_add_r by lia. f_equal. lia. }
  replace (Z.succ la) with (la + 1) in Ha2 by lia.
  replace (Z.succ lb) with (lb + 1) in Hb2 by lia.
  rewrite pow2_succ in Ha2, Hb2 by lia.
  assert (Hp0 : 0 < 2 ^ s0) by (apply Z.pow_pos_nonneg; lia).
  assert (Hlow : 2 ^ 51 * b < a * 2 ^ s0).
  { change (2 ^ 52) with (2 * 2 ^ 51) in Hs0. nia. }
  assert (Hhigh : a * 2 ^ s0 < 2 ^ 53 * b).
  { change (2 ^ 53) with (2 * 2 ^ 52). nia. }
  destruct (Z.ltb_spec (a * 2 ^ s0 / b) (2 ^ 52)) as [Hlt | Hge].
  - assert (Hlt' : a * 2 ^ s0 < 2 ^ 52 * b).
    { apply Z.nle_gt. intros Hle.
      assert (2 ^ 52 <= a * 2 ^ s0 / b); [|lia].
      apply Z.div_le_lower_bound; lia. }
    rewrite pow2_succ by lia.
    change (2 ^ 52) with (2 * 2 ^ 51). change (2 ^ 53) with (2 * 2 ^ 52).
    change (2 ^ 52) with (2 * 2 ^ 51) in Hlt'. lia.
  - split; [lia|]. split; [|exact Hhigh].
    apply Z.nlt_ge. intros Hlt.
    assert (a * 2 ^ s0 / b < 2 ^ 52); [|lia].
    apply Z.div_lt_upper_bound; lia.
Qed.

Lemma shift_not_below (a b a' b' : Z) :
  0 < a <= b -> 0 < a' <= b' -> a * b' = a' * b ->
  ~ shift a b < shift a' b'.
Proof.
  intros Hab Hab' Heq Hlt.
  destruct (shift_normal a b Hab) as (Hs & H1 & _).
  destruct (shift_normal a' b' Hab') as (Hs' & _ & H2).
  assert (Hmono : 2 * 2 ^ shift a b <= 2 ^ shift a' b').
  { rewrite <- pow2_succ by lia. apply Z.pow_le_mono_r; lia. }
  change (2 ^ 53) with (2 * 2 ^ 52) in H2.
  set (P := 2 ^ shift a b) in *. set (P' := 2 ^ shift a' b') in *.
  set (K := 2 ^ 52) in *.
  assert (HK : 0 < K) by reflexivity.
  assert (HP : 0 < P) by (apply Z.pow_pos_nonneg; lia).
  clearbody P P' K.
  assert (H3 : K * b * b' <= a * P * b')
    by (apply Z.mul_le_mono_nonneg_r; lia).
  assert (H4 : a' * P' * b < 2 * K * b' * b)
    by (apply Z.mul_lt_mono_pos_r; lia).
  assert (H5 : a' * b * (2 * P) <= a' * b * P')
    by (apply Z.mul_le_mono_nonneg_l; nia).
  assert (H6 : a' * P' * b = a * b' * P') by (rewrite Heq; ring).
  rewrite <- Heq in H5. lia.
Qed.

(** The shift depends on the quotient only. *)
Lemma shift_ext (a b a' b' : Z) :
  0 < a <= b -> 0 < a' <= b' -> a * b' = a' * b ->
  shift a b = shift a' b'.
Proof.
  intros Hab Hab' Heq.
  pose proof (shift_not_below a b a' b' Hab Hab' Heq).
  pose proof (shift_not_below a' b' a b Hab' Hab (eq_sym Heq)).
  lia.
Qed.

(** [nearest] is within a half of the quotient. *)
Lemma nearest_spec (n b : Z) :
  0 < b -> 0 <= n ->
  let m := nearest n b in
  0 <= m /\ -b <= 2 * (m * b - n) <= b.
Proof.
  intros Hb Hn. unfold nearest.
  pose proof (Z.div_mod n b ltac:(lia)) as Hdm.
  pose proof (Z.mod_pos_bound n b Hb) as Hr.
  assert (Hm : 0 <= n / b) by (apply Z.div_pos; lia).
  destruct (Z.ltb_spec (2 * (n mod b)) b);
    [|destruct (Z.ltb_spec b (2 * (n mod b))); [|destruct (Z.even (n / b))]];
    simpl; nia.
Qed.

Lemma div_ext (n b n' b' : Z) :
  0 < b -> 0 < b' -> n * b' = n' * b ->
  n / b = n' / b' /\ (n mod b) * b' = (n' mod b') * b.
Proof.
  intros Hb Hb' Heq.
  pose proof (Z.div_mod n b ltac:(lia)) as Hdm.
  pose proof (Z.mod_pos_bound n b Hb) as Hr.
  set (q := n / b) in *. set (r := n mod b) in *. clearbody q r.
  assert (Hrem : (n' - b' * q) * b = b' * r).
  { replace ((n' - b' * q) * b) with (n' * b - b' * (b * q)) by ring.
    rewrite <- Heq. rewrite Hdm. ring. }
  assert (Hq : q = n' / b').
  { apply (Z.div_unique n' b' q (n' - b' * q)); [left | ring].
    split.
    - apply (Z.mul_le_mono_pos_r _ _ b Hb). rewrite Hrem. nia.
    - apply (Z.mul_lt_mono_pos_r b _ _ Hb). rewrite Hrem.
      apply Z.mul_lt_mono_pos_l; lia. }
  split; [exact Hq|].
  pose proof (Z.div_mod n' b' ltac:(lia)) as Hdm'.
  rewrite <- Hq in Hdm'.
  replace (n' mod b') with (n' - b' * q) by lia.
  rewrite Hrem. ring.
Qed.

Lemma nearest_ext (n b n' b' : Z) :
  0 < b -> 0 < b' -> n * b' = n' * b -> nearest n b = nearest n' b'.
Proof.
  intros Hb Hb' Heq. unfold nearest.
  destruct (div_ext n b n' b' Hb Hb' Heq) as [Hq Hr]. rewrite <- Hq.
  set (r := n mod b) in *. set (r' := n' mod b') in *. clearbody r r'.
  assert (H1 : 2 * r < b <-> 2 * r' < b').
  { split; intros H.
    - apply (Z.mul_lt_mono_pos_r b _ _ Hb).
      replace (2 * r' * b) with (2 * (r * b')) by (rewrite Hr; ring).
      replace (b' * b) with (b * b') by ring.
      rewrite Z.mul_assoc. apply Z.mul_lt_mono_pos_r; lia.
    - apply (Z.mul_lt_mono_pos_r b' _ _ Hb').
      replace (2 * r * b') with (2 * (r' * b)) by (rewrite <- Hr; ring).
      replace (b * b') with (b' * b) by ring.
      rewrite Z.mul_assoc. apply Z.mul_lt_mono_pos_r; lia. }
  assert (H2 : b < 2 * r <-> b' < 2 * r').
  { split; intros H.
    - apply (Z.mul_lt_mono_pos_r b _ _ Hb).
      replace (2 * r' * b) with (2 * (r * b')) by (rewrite Hr; ring).
      replace (b' * b) with (b * b') by ring.
      rewrite Z.mul_assoc. apply Z.mul_lt_mono_pos_r; lia.
    - apply (Z.mul_lt_mono_pos_r b' _ _ Hb').
      replace (2 * r * b') with (2 * (r' * b)) by (rewrite <- Hr; ring).
      replace (b * b') with (b' * b) by ring.
      rewrite Z.mul_assoc. apply Z.mul_lt_mono_pos_r; lia. }
  destruct (Z.ltb_spec (2 * r) b), (Z.ltb_spec (2 * r') b');
    try reflexivity; try lia.
  destruct (Z.ltb_spec b (2 * r)), (Z.ltb_spec b' (2 * r'));
    try reflexivity; lia.
Qed.

(** The quotient of two counts depends on their ratio only. *)
Lemma true_divide_ext (a b a' b' : Z) :
  0 <= a <= b -> 0 <= a' <= b' -> 0 < b -> 0 < b' -> a * b' = a' * b ->
  true_divide a b = true_divide a' b'.
Proof.
  intros Hab Hab' Hb Hb' Heq.
  destruct (Z.eq_dec a 0) as [-> | Ha].
  - assert (a' = 0) by nia. subst a'. reflexivity.
  - assert (Ha' : a' <> 0) by nia.
    rewrite !true_divide_nearest by assumption.
    rewrite (shift_ext a b a' b') by lia.
    f_equal. apply nearest_ext; [lia | lia | nia].
Qed.

(** The quotient is a number between 0 and 1, within 2^-53 of the exact
    ratio. *)
Lemma true_divide_bounds (a b : Z) :
  0 <= a <= b -> 0 < b ->
  (0 <= true_divide a b <= 1)%Q
  /\ (a # Z.to_pos b <= true_divide a b + (1 # 2 ^ 53))%Q
  /\ (true_divide a b <= (a # Z.to_pos b) + (1 # 2 ^ 53))%Q.
Proof.
  intros Hab Hb.
  destruct (Z.eq_dec a 0) as [-> | Ha].
  - unfold true_divide. simpl. repeat split; unfold Qle; simpl; lia.
  - rewrite true_divide_nearest by exact Ha.
    destruct (shift_normal a b ltac:(lia)) as (Hs & _).
    set (s := Z.min (shift a b) 1074).
    assert (Hs' : 52 <= s) by (unfold s; lia).
    assert (Hp : 0 < 2 ^ s) by (apply Z.pow_pos_nonneg; lia).
    assert (Hp52 : 2 ^ 52 <= 2 ^ s) by (apply Z.pow_le_mono_r; lia).
    destruct (nearest_spec (a * 2 ^ s) b Hb ltac:(nia)) as [Hm0 Hm].
    set (m := nearest (a * 2 ^ s) b) in *.
    unfold Qle, Qplus. cbn [Qnum Qden].
    rewrite ?Pos2Z.inj_mul, ?Z2Pos.id by lia.
    change (Z.pos (2 ^ 53)) with (2 * 2 ^ 52).
    repeat split; try nia.
Qed.

(** Where rounding cannot show: against the double nearest to [u / v],
    quotients of counts below [2^52 / v] compare as the exact ratios do. *)
Lemma true_divide_compare (o n u v : Z) :
  0 <= o <= n -> 0 < n -> 0 <= u <= v -> 0 < v -> v * n < 2 ^ 52 ->
  Qle_bool (true_divide u v) (true_divide o n) = true <-> u * n <= o * v.
Proof.
  intros Hon Hn Huv Hv Hsmall.
  destruct (true_divide_bounds o n Hon Hn) as (_ & Ho1 & Ho2).
  destruct (true_divide_bounds u v Huv Hv) as (_ & Hu1 & Hu2).
  rewrite Qle_bool_iff.
  assert (Hgap : forall a b c d : Z,
             0 < b -> 0 < d -> b * d < 2 ^ 52 -> a * d < c * b ->
             ((a # Z.to_pos b) + (1 # 2 ^ 52) < (c # Z.to_pos d))%Q).
  { intros a b c d Hb Hd Hbd Hlt. unfold Qlt, Qplus. cbn [Qnum Qden].
    rewrite ?Pos2Z.inj_mul, ?Z2Pos.id by lia.
    change (Z.pos (2 ^ 52)) with (2 ^ 52).
    set (K := 2 ^ 52) in *. assert (HK : 0 < K) by reflexivity.
    clearbody K.
    replace ((a * K + 1 * b) * d) with (a * d * K + b * d) by ring.
    replace (c * (b * K)) with (c * b * K) by ring.
    assert (H1 : (a * d + 1) * K <= c * b * K)
      by (apply Z.mul_le_mono_nonneg_r; lia).
    lia. }
  assert (Heps : ((1 # 2 ^ 53) + (1 # 2 ^ 53) == 1 # 2 ^ 52)%Q)
    by reflexivity.
  set (e := (1 # 2 ^ 53)%Q) in *. set (e2 := (1 # 2 ^ 52)%Q) in *.
  clearbody e e2.
  split.
  - intros Hle. apply Z.nlt_ge. intros Hlt.
    assert (Hs1 : n * v < 2 ^ 52) by (rewrite Z.mul_comm; exact Hsmall).
    pose proof (Hgap o n u v Hn Hv Hs1 Hlt) as Hg. lra.
  - intros Hle. destruct (Z.eq_dec (u * n) (o * v)) as [Heq | Hne].
    + rewrite (true_divide_ext u v o n) by lia. apply Qle_refl.
    + pose proof (Hgap u v o n Hv Hn Hsmall ltac:(lia)) as Hg. lra.
Qed.
End FloatFacts.

(** ** The retrieval gate *)

Module GateFacts.
Import PyStr PyStrFacts.

Lemma size_meaningful_pos (m : gset string) : m <> ∅ -> 0 < size m.
Proof.
  intros Hne. destruct (size m) eqn:Hs; [|lia].
  apply size_empty_inv in Hs. exfalso. apply Hne.
  now apply leibniz_equiv.
Qed.

Lemma overlap_counts (m : gset string) (chunk : Doc) :
  (0 <= Z.of_nat (size (m ∩ word_set (page_content chunk)))
   <= Z.of_nat (size m))%Z.
Proof.
  split; [lia|]. apply inj_le, subseteq_size. set_solver.
Qed.

Lemma overlap_reaches_spec (m : gset string) (t : Q) (chunk : Doc) :
  overlap_reaches m t chunk = true <-> (t <= overlap_quotient m chunk)%Q.
Proof. unfold overlap_reaches, overlap_quotient. apply Qle_bool_iff. Qed.

(** Against the double nearest to [u / v], and with fewer than [2^52 / v]
    meaningful terms, the quotient compares as the exact ratio does. *)
Lemma overlap_reaches_exact (m : gset string) (u v : nat) (chunk : Doc) :
  m <> ∅ -> u <= v -> 0 < v ->
  (Z.of_nat v * Z.of_nat (size m) < 2 ^ 52)%Z ->
  overlap_reaches m (true_divide (Z.of_nat u) (Z.of_nat v)) chunk = true
  <-> (inject_Z (Z.of_nat u) / inject_Z (Z.of_nat v)
       <= overlap_ratio m chunk)%Q.
Proof.
  intros Hne Huv Hv Hsmall. apply size_meaningful_pos in Hne.
  unfold overlap_reaches.
  rewrite (FloatFacts.true_divide_compare _ _ _ _ (overlap_counts m chunk))
    by lia.
  unfold overlap_ratio.
  set (o := size (m ∩ word_set (page_content chunk))).
  rewrite <- (Z2Pos.id (Z.of_nat v)), <- (Z2Pos.id (Z.of_nat (size m))) by lia.
  rewrite <- !Qmake_Qdiv. unfold Qle. cbn [Qnum Qden].
  rewrite !Z2Pos.id by lia. reflexivity.
Qed.

Lemma scan_chunks_spec (m : gset string) (t : Q) (chunks : list Doc) :
  scan_chunks m t chunks = true
  <-> exists chunk, In chunk chunks /\ overlap_reaches m t chunk = true.
Proof.
  induction chunks as [|c cs IH]; simpl.
  - split; [discriminate | intros [? [[] _]]].
  - destruct (overlap_reaches m t c) eqn:Hc.
    + split; [intros _; exists c; auto | reflexivity].
    + rewrite IH. split.
      * intros [x [Hin Hx]]. exists x. auto.
      * intros [x [[<- | Hin] Hx]]; [congruence | exists x; auto].
Qed.

(** The meaningful terms of the query of the boundary test. *)
Lemma meaningful_pass_the_ticket :
  meaningful_terms "pass the ticket" = {[ "pass"; "ticket" ]}.
Proof. vm_compute. reflexivity. Qed.

Lemma pass_ticket_nonempty : ({[ "pass"; "ticket" ]} : gset string) <> ∅.
Proof. intros H. assert (Hin : "pass" ∈ (∅ : gset string)) by (rewrite <- H; set_solver). set_solver. Qed.

Lemma pass_ticket_size : size ({[ "pass"; "ticket" ]} : gset string) = 2.
Proof. vm_compute. reflexivity. Qed.

(** A chunk sharing no word with the two terms is below every positive
    threshold; a chunk sharing one reaches a quarter. *)
Lemma no_shared_word (chunk : Doc) :
  "pass" ∉ word_set (page_content chunk) ->
  "ticket" ∉ word_set (page_content chunk) ->
  overlap_reaches {[ "pass"; "ticket" ]} strict_threshold chunk = false.
Proof.
  intros Hp Ht. unfold overlap_reaches.
  assert (He : {[ "pass"; "ticket" ]} ∩ word_set (page_content chunk)
               = (∅ : gset string)) by set_solver.
  rewrite He, pass_ticket_size. reflexivity.
Qed.

Lemma shared_word (chunk : Doc) (w : string) :
  w ∈ ({[ "pass"; "ticket" ]} : gset string) ->
  w ∈ word_set (page_content chunk) ->
  overlap_reaches {[ "pass"; "ticket" ]} strict_threshold chunk = true.
Proof.
  intros Hm Hw. unfold overlap_reaches.
  assert (Hpos : 0 < size ({[ "pass"; "ticket" ]}
                           ∩ word_set (page_content chunk))).
  { apply size_meaningful_pos. intros He.
    assert (Hin : w ∈ (∅ : gset string)) by (rewrite <- He; set_solver).
    set_solver. }
  pose proof (overlap_counts {[ "pass"; "ticket" ]} chunk) as Hle.
  rewrite pass_ticket_size in *.
  destruct (size ({[ "pass"; "ticket" ]} ∩ word_set (page_content chunk)))
    as [|[|[|n]]]; [lia | reflexivity | reflexivity | lia].
Qed.

(** The phrase read at a word boundary puts one of its outer words into
    the word set of the text. *)
Lemma phrase_gives_word (pre post : string) :
  word_start pre \/ word_end post ->
  "pass" ∈ word_set (pre +:+ "pass the ticket" +:+ post)
  \/ "ticket" ∈ word_set (pre +:+ "pass the ticket" +:+ post).
Proof.
  intros [Hs | He].
  - left. apply word_start_lower in Hs.
    unfold word_set. rewrite elem_of_list_to_set, list_elem_of_In.
    rewrite !lower_app. change (lower "pass the ticket") with "pass the ticket".
    assert (Hhead : forall rest,
               In "pass" (split_from "" ("pass the ticket" +:+ rest))).
    { intros rest. simpl. now left. }
    destruct Hs as [-> | (front & c & -> & Hc)].
    + apply Hhead.
    + rewrite append_assoc.
      change (String c "" +:+ "pass the ticket" +:+ lower post)
        with (String c ("pass the ticket" +:+ lower post)).
      apply split_from_after_space; [exact Hc | apply Hhead].
  - right. apply word_end_lower in He.
    unfold word_set. rewrite elem_of_list_to_set, list_elem_of_In.
    rewrite !lower_app. change (lower "pass the ticket") with "pass the ticket".
    change ("pass the ticket" +:+ lower post)
      with ("pass the" +:+ String " " ("ticket" +:+ lower post)).
    rewrite <- append_assoc.
    apply split_from_after_space; [reflexivity|].
    destruct He as [-> | (c & rest & -> & Hc)].
    + simpl. now left.
    + simpl. rewrite Hc. simpl. now left.
Qed.
End GateFacts.

(** C10: on an empty chunk list the gate answers [False] for every query and
    every threshold, also for a query made of stop words only, which a
    non-empty chunk list would have accepted: the test of the chunk list
    comes first. *)
Theorem validate_empty_chunk_list :
  (forall (query : string) (threshold : Q),
      validate_chunk_relevance query [] threshold = false)
  /\ (forall (query : string) (threshold : Q) (chunk : Doc) (rest : list Doc),
        meaningful_terms query = ∅ ->
        validate_chunk_relevance query (chunk :: rest) threshold = true
        /\ validate_chunk_relevance query [] threshold = false).
Proof.
  split; [reflexivity|].
  intros query threshold chunk rest Hm. split; [|reflexivity].
  unfold validate_chunk_relevance. rewrite Hm.
  destruct (decide (∅ = ∅)) as [_|H]; [reflexivity | now contradiction H].
Qed.

Lemma validate_empty_chunk_list_witness :
  meaningful_terms "what is the" = ∅
  /\ validate_chunk_relevance "what is the" [mkDoc "password spray" []]
       default_threshold = true
  /\ validate_chunk_relevance "what is the" [] default_threshold = false.
Proof.
  assert (Hm : meaningful_terms "what is the" = ∅) by (vm_compute; reflexivity).
  split; [exact Hm|].
  exact (proj2 validate_empty_chunk_list "what is the" default_threshold
           (mkDoc "password spray" []) [] Hm).
Defined.

(** C3, as the code has it: the gate rejects an empty chunk list; for a chunk
    list that is not empty it accepts when the query has no meaningful term,
    and otherwise accepts exactly when the overlap ratio of some chunk, the
    double the division of the two counts gives, reaches the threshold, so
    it rejects when none does.  Where rounding cannot show, this is the
    comparison of the exact ratio: when the threshold is the double nearest
    to a fraction [u / v] (0.3 is the one nearest to 3/10, 0.25 is 1/4) and
    the query has fewer than [2^52 / v] meaningful terms, the gate accepts
    exactly when the exact ratio of some chunk is at least [u / v].  The
    meaningful terms are the lowercased, white-space-split words of the
    query without the stop words. *)
Theorem validate_on_chunks (query : string) (chunks : list Doc) (threshold : Q) :
  let meaningful :=
    list_to_set (PyStr.split (PyStr.lower query)) ∖ stop_words in
  (chunks = [] -> validate_chunk_relevance query chunks threshold = false)
  /\ (chunks <> [] -> meaningful = ∅ ->
      validate_chunk_relevance query chunks threshold = true)
  /\ (chunks <> [] -> meaningful <> ∅ ->
      (validate_chunk_relevance query chunks threshold = true
       <-> exists chunk, In chunk chunks
             /\ (threshold <= overlap_quotient meaningful chunk)%Q))
  /\ (meaningful <> ∅ ->
      (forall chunk, In chunk chunks ->
          ~ (threshold <= overlap_quotient meaningful chunk)%Q) ->
      validate_chunk_relevance query chunks threshold = false)
  /\ (forall u v : nat,
        threshold = true_divide (Z.of_nat u) (Z.of_nat v) ->
        u <= v -> 0 < v ->
        (Z.of_nat v * Z.of_nat (size meaningful) < 2 ^ 52)%Z ->
        chunks <> [] -> meaningful <> ∅ ->
        (validate_chunk_relevance query chunks threshold = true
         <-> exists chunk, In chunk chunks
               /\ (inject_Z (Z.of_nat u) / inject_Z (Z.of_nat v)
                   <= overlap_ratio meaningful chunk)%Q)).
Proof.
  intros meaningful.
  assert (Hscan : chunks <> [] -> meaningful <> ∅ ->
      (validate_chunk_relevance query chunks threshold = true
       <-> exists chunk, In chunk chunks
             /\ overlap_reaches meaningful threshold chunk = true)).
  { intros Hne Hm. destruct chunks as [|c cs]; [now contradiction Hne|].
    unfold validate_chunk_relevance.
    change (meaningful_terms query) with meaningful.
    destruct (decide (meaningful = ∅)) as [He|_]; [now contradiction Hm|].
    apply GateFacts.scan_chunks_spec. }
  assert (Hiff : chunks <> [] -> meaningful <> ∅ ->
      (validate_chunk_relevance query chunks threshold = true
       <-> exists chunk, In chunk chunks
             /\ (threshold <= overlap_quotient meaningful chunk)%Q)).
  { intros Hne Hm. rewrite (Hscan Hne Hm).
    split; intros [x [Hin Hx]]; exists x; split; auto;
      now apply GateFacts.overlap_reaches_spec. }
  split; [|split; [|split; [|split]]].
  - intros ->. reflexivity.
  - intros Hne Hm. destruct chunks as [|c cs]; [now contradiction Hne|].
    unfold validate_chunk_relevance.
    change (meaningful_terms query) with meaningful.
    destruct (decide (meaningful = ∅)) as [_|H]; [reflexivity | now contradiction H].
  - exact Hiff.
  - intros Hm Hnone. destruct chunks as [|c cs]; [reflexivity|].
    apply not_true_is_false. intros Hv.
    apply Hiff in Hv as [x [Hin Hx]]; [|discriminate | exact Hm].
    now destruct (Hnone x Hin).
  - intros u v -> Huv Hv Hsmall Hne Hm. rewrite (Hscan Hne Hm).
    split; intros [x [Hin Hx]]; exists x; split; auto;
      now apply (GateFacts.overlap_reaches_exact meaningful u v x Hm Huv Hv
                   Hsmall).
Qed.

Lemma validate_on_chunks_witness :
  let chunks :=
    [mkDoc "Password spray" []; mkDoc "Steps to pass the ticket" []] in
  let meaningful :=
    list_to_set (PyStr.split (PyStr.lower "pass the hash")) ∖ stop_words in
  default_threshold = true_divide (Z.of_nat 3) (Z.of_nat 10)
  /\ chunks <> [] /\ meaningful <> (∅ : gset string)
  /\ (validate_chunk_relevance "pass the hash" chunks default_threshold = true
      <-> exists chunk, In chunk chunks
            /\ (inject_Z (Z.of_nat 3) / inject_Z (Z.of_nat 10)
                <= overlap_ratio meaningful chunk)%Q).
Proof.
  intros chunks meaningful.
  assert (Ht : default_threshold = true_divide (Z.of_nat 3) (Z.of_nat 10))
    by (vm_compute; reflexivity).
  assert (Hne : chunks <> []) by discriminate.
  assert (Hm : meaningful <> (∅ : gset string)).
  { intros He. assert (Hs : size meaningful = 0) by now rewrite He.
    vm_compute in Hs. discriminate Hs. }
  split; [exact Ht|]. split; [exact Hne|]. split; [exact Hm|].
  apply (proj2 (proj2 (proj2 (proj2
           (validate_on_chunks "pass the hash" chunks default_threshold))))
           3 10 Ht); [lia | lia | | exact Hne | exact Hm].
  replace (size (list_to_set (PyStr.split (PyStr.lower "pass the hash"))
                 ∖ stop_words)) with 2 by (vm_compute; reflexivity).
  reflexivity.
Defined.

(** C3 as stated fails on the empty chunk list: the query has no meaningful
    term and the gate still answers [False]. *)
Lemma validate_no_terms_counterexample :
  meaningful_terms "what is the" = ∅
  /\ validate_chunk_relevance "what is the" [] default_threshold <> true.
Proof. split; [vm_compute; reflexivity | discriminate]. Qed.

(** C7, as the code has it: at threshold 0.25 the query "pass the ticket" is
    rejected when no retrieved chunk has the word "pass" or the word
    "ticket", and accepted when some retrieved chunk contains the phrase
    "pass the ticket" starting or ending at a word boundary (the start or end
    of the text, or white space). *)
Theorem gate_boundary_pass_the_ticket :
  (forall chunks : list Doc,
      (forall chunk, In chunk chunks ->
          ("pass" ∉ word_set (page_content chunk))
          /\ ("ticket" ∉ word_set (page_content chunk))) ->
      validate_chunk_relevance "pass the ticket" chunks strict_threshold = false)
  /\ (forall (chunks : list Doc) (chunk : Doc) (pre post : string),
        In chunk chunks ->
        page_content chunk = pre +:+ "pass the ticket" +:+ post ->
        word_start pre \/ word_end post ->
        validate_chunk_relevance "pass the ticket" chunks strict_threshold = true).
Proof.
  split.
  - intros chunks Hnone. destruct chunks as [|c cs]; [reflexivity|].
    unfold validate_chunk_relevance.
    rewrite GateFacts.meaningful_pass_the_ticket.
    destruct (decide (_ = ∅)) as [He|_];
      [now destruct (GateFacts.pass_ticket_nonempty He)|].
    apply not_true_is_false. intros Hv.
    apply GateFacts.scan_chunks_spec in Hv as [x [Hin Hx]].
    destruct (Hnone x Hin) as [Hp Ht].
    rewrite (GateFacts.no_shared_word x Hp Ht) in Hx. discriminate.
  - intros chunks chunk pre post Hin Htext Hb.
    destruct chunks as [|c cs]; [destruct Hin|].
    unfold validate_chunk_relevance.
    rewrite GateFacts.meaningful_pass_the_ticket.
    destruct (decide (_ = ∅)) as [He|_];
      [now destruct (GateFacts.pass_ticket_nonempty He)|].
    apply GateFacts.scan_chunks_spec. exists chunk. split; [exact Hin|].
    destruct (GateFacts.phrase_gives_word pre post Hb) as [Hw | Hw];
      rewrite <- Htext in Hw.
    + apply (GateFacts.shared_word chunk "pass"); [set_solver | exact Hw].
    + apply (GateFacts.shared_word chunk "ticket"); [set_solver | exact Hw].
Qed.

Lemma gate_boundary_pass_the_ticket_witness :
  validate_chunk_relevance "pass the ticket"
    [mkDoc "Password spray attacks try one password on many accounts" []]
    strict_threshold = false
  /\ validate_chunk_relevance "pass the ticket"
       [mkDoc "Password spray" []; mkDoc "Detect a pass the ticket attack" []]
       strict_threshold = true.
Proof.
  split.
  - apply (proj1 gate_boundary_pass_the_ticket).
    intros chunk [<- | []]. vm_compute. split; intros H; discriminate H.
  - apply (proj2 gate_boundary_pass_the_ticket _
             (mkDoc "Detect a pass the ticket attack" []) "Detect a " " attack").
    + right. left. reflexivity.
    + reflexivity.
    + left. right. exists "Detect a", " "%char. split; reflexivity.
Defined.

(** C7 as stated fails: a chunk can contain the literal substring
    "pass the ticket" without having "pass" or "ticket" as a word, and is
    then rejected. *)
Lemma gate_substring_counterexample :
  PyStr.contains "pass the ticket" "how attackers bypass the ticketing system"
  = true
  /\ validate_chunk_relevance "pass the ticket"
       [mkDoc "how attackers bypass the ticketing system" []]
       strict_threshold = false.
Proof. split; vm_compute; reflexivity. Qed.

(** ** Query rewriting *)

Module RewriteFacts.
Import PyStr PyStrFacts.

Lemma rule_reflect (words : list string) (stop question : string) :
  any_in words (lower question) && negb (contains stop (lower question))
  = true
  <-> mentions words question /\ ~ occurs stop (lower question).
Proof.
  rewrite andb_true_iff, negb_true_iff, any_in_spec, contains_false.
  reflexivity.
Qed.
End RewriteFacts.

(** C8: the rewrite appends "post-incident" when the first rule triggers
    (whether or not the second does), appends "investigation" when only the
    second triggers, returns the question unchanged when neither does, and
    so never appends more than one term. *)
Theorem enhance_query_appends_at_most_one_term (question : string) :
  (post_incident_rule question ->
   enhance_query_for_better_retrieval question
   = question +:+ " " +:+ "post-incident")
  /\ (~ post_incident_rule question ->
      investigation_rule question ->
      enhance_query_for_better_retrieval question
      = question +:+ " " +:+ "investigation")
  /\ (~ post_incident_rule question ->
      ~ investigation_rule question ->
      enhance_query_for_better_retrieval question = question)
  /\ In (enhance_query_for_better_retrieval question)
        [question; question +:+ " " +:+ "post-incident";
         question +:+ " " +:+ "investigation"].
Proof.
  unfold post_incident_rule, investigation_rule.
  rewrite <- !RewriteFacts.rule_reflect.
  unfold enhance_query_for_better_retrieval.
  destruct (PyStr.any_in ["after"; "post"; "following"] (PyStr.lower question)
            && negb (PyStr.contains "incident" (PyStr.lower question)));
    destruct (PyStr.any_in ["investigate"; "analysis"; "review"]
                (PyStr.lower question)
              && negb (PyStr.contains "investigation" (PyStr.lower question)));
    simpl; repeat split; intros; try reflexivity; try congruence; auto.
Qed.

Lemma enhance_query_appends_at_most_one_term_witness :
  enhance_query_for_better_retrieval "What to review after a breach?"
  = "What to review after a breach? post-incident"
  /\ enhance_query_for_better_retrieval "How do I investigate phishing?"
     = "How do I investigate phishing? investigation"
  /\ enhance_query_for_better_retrieval "List the vendors" = "List the vendors".
Proof.
  split; [|split].
  - apply (proj1 (enhance_query_appends_at_most_one_term
                    "What to review after a breach?")).
    apply RewriteFacts.rule_reflect. vm_compute. reflexivity.
  - apply (proj1 (proj2 (enhance_query_appends_at_most_one_term
                           "How do I investigate phishing?"))).
    + intros H. apply RewriteFacts.rule_reflect in H. vm_compute in H.
      discriminate H.
    + apply RewriteFacts.rule_reflect. vm_compute. reflexivity.
  - apply (proj1 (proj2 (proj2 (enhance_query_appends_at_most_one_term
                                  "List the vendors")))).
    + intros H. apply RewriteFacts.rule_reflect in H. vm_compute in H.
      discriminate H.
    + intros H. apply RewriteFacts.rule_reflect in H. vm_compute in H.
      discriminate H.
Defined.

(** ** Dictionaries and loops *)

Module DictFacts.
Section DictFacts.
Context {V : Type}.
Implicit Types (d other : Dict.t V) (k : string) (v : V).

Lemma get_set_eq k v d : Dict.get k (Dict.set k v d) = Some v.
Proof.
  induction d as [|[k' v'] d IH]; simpl.
  - now destruct (decide (k = k)).
  - destruct (decide (k = k')) as [->|Hne]; simpl.
    + now destruct (decide (k' = k')).
    + now destruct (decide (k = k')).
Qed.

Lemma get_set_ne k k' v d :
  k <> k' -> Dict.get k' (Dict.set k v d) = Dict.get k' d.
Proof.
  intros Hne. induction d as [|[k0 v0] d IH]; simpl.
  - destruct (decide (k' = k)); [congruence | reflexivity].
  - destruct (decide (k = k0)) as [->|Hk]; simpl.
    + destruct (decide (k' = k0)); [congruence | reflexivity].
    + destruct (decide (k' = k0)); [reflexivity | exact IH].
Qed.

Lemma keys_set k v d :
  In k (Dict.keys d) -> Dict.keys (Dict.set k v d) = Dict.keys d.
Proof.
  induction d as [|[k0 v0] d IH]; simpl; [intros []|].
  intros Hin. destruct (decide (k = k0)) as [->|Hk]; simpl; [reflexivity|].
  f_equal. apply IH. destruct Hin; [congruence | assumption].
Qed.

Lemma keys_set_new k v d :
  ~ In k (Dict.keys d) ->
  Dict.keys (Dict.set k v d) = Dict.keys d ++ [k].
Proof.
  induction d as [|[k0 v0] d IH]; simpl; [reflexivity|].
  intros Hin. destruct (decide (k = k0)) as [->|Hk]; simpl.
  - exfalso. auto.
  - f_equal. apply IH. auto.
Qed.

Lemma NoDup_keys_set k v d :
  List.NoDup (Dict.keys d) -> List.NoDup (Dict.keys (Dict.set k v d)).
Proof.
  intros Hd. destruct (in_dec Stdlib.Strings.String.string_dec k (Dict.keys d)) as [Hin|Hin].
  - now rewrite keys_set.
  - rewrite keys_set_new by assumption.
    apply NoDup_ListNoDup, NoDup_app. repeat split.
    + now apply NoDup_ListNoDup.
    + intros x Hx Hx'. apply list_elem_of_In in Hx.
      apply list_elem_of_In in Hx'. destruct Hx' as [<-|[]]. auto.
    + apply NoDup_ListNoDup. constructor; [intros []|constructor].
Qed.

Lemma get_None_keys k d : Dict.get k d = None <-> ~ In k (Dict.keys d).
Proof.
  induction d as [|[k0 v0] d IH]; simpl.
  - split; auto.
  - destruct (decide (k = k0)) as [->|Hk].
    + split; [discriminate | intros H; exfalso; auto].
    + rewrite IH. split; [intros H [?|?]; [congruence | auto] | auto].
Qed.

Lemma get_In k v d :
  List.NoDup (Dict.keys d) -> (In (k, v) d <-> Dict.get k d = Some v).
Proof.
  induction d as [|[k0 v0] d IH]; simpl; intros Hd.
  - split; [intros [] | discriminate].
  - inversion Hd as [|? ? Hnotin Hd']; subst.
    destruct (decide (k = k0)) as [->|Hk].
    + split.
      * intros [H | H]; [congruence|].
        exfalso. apply Hnotin. now apply (in_map fst) in H.
      * intros H. left. congruence.
    + rewrite <- (IH Hd'). split; [intros [H|H]; [congruence | auto] | auto].
Qed.

Lemma get_update k d other :
  List.NoDup (Dict.keys other) ->
  Dict.get k (Dict.update d other)
  = match Dict.get k other with
    | Some v => Some v
    | None => Dict.get k d
    end.
Proof.
  unfold Dict.update. revert d.
  induction other as [|[k0 v0] other IH]; intros d Hnd; simpl.
  - reflexivity.
  - inversion Hnd as [|? ? Hnotin Hnd']; subst.
    rewrite (IH _ Hnd').
    destruct (decide (k = k0)) as [->|Hk].
    + apply get_None_keys in Hnotin. rewrite Hnotin. apply get_set_eq.
    + destruct (Dict.get k other); [reflexivity|]. now apply get_set_ne.
Qed.
End DictFacts.

(** A loop that appends one element per step builds a [map]. *)
Lemma fold_left_snoc {A B : Type} (g : A -> B) (l : list A) (acc : list B) :
  fold_left (fun all x => all ++ [g x]) l acc = acc ++ map g l.
Proof.
  revert acc. induction l as [|x l IH]; intros acc; simpl.
  - now rewrite app_nil_r.
  - rewrite IH. now rewrite <- app_assoc.
Qed.

(** A loop that appends a list per step builds a [flat_map]. *)
Lemma fold_left_append {A B : Type} (g : A -> list B) (l : list A)
    (acc : list B) :
  fold_left (fun all x => all ++ g x) l acc = acc ++ flat_map g l.
Proof.
  revert acc. induction l as [|x l IH]; intros acc; simpl.
  - now rewrite app_nil_r.
  - rewrite IH. now rewrite <- app_assoc.
Qed.

Lemma fold_left_ext {A B : Type} (f g : B -> A -> B) (l : list A) (acc : B) :
  (forall b a, In a l -> f b a = g b a) ->
  fold_left f l acc = fold_left g l acc.
Proof.
  revert acc. induction l as [|x l IH]; intros acc H; simpl; [reflexivity|].
  rewrite (H acc x) by now left. apply IH. intros b a Ha. apply H. now right.
Qed.

(** A loop that appends the elements passing a test builds a [filter]. *)
Lemma fold_left_filter {A B : Type} (test : A -> bool) (g : A -> B)
    (l : list A) (acc : list B) :
  fold_left (fun sel x => if test x then sel ++ [g x] else sel) l acc
  = acc ++ map g (List.filter test l).
Proof.
  revert acc. induction l as [|x l IH]; intros acc; simpl.
  - now rewrite app_nil_r.
  - rewrite IH. destruct (test x); simpl; [|reflexivity].
    now rewrite <- app_assoc.
Qed.

(** Reading a file in pieces feeds the hash its whole content. *)
Lemma fold_groups {A : Type} (k fuel : nat) (data acc : list A) :
  0 < k -> length data <= fuel ->
  fold_left (fun fed chunk => fed ++ chunk) (groups fuel k data) acc
  = acc ++ data.
Proof.
  intros Hk. revert data acc.
  induction fuel as [|fuel IH]; intros data acc Hlen.
  - destruct data; [now rewrite app_nil_r | simpl in Hlen; lia].
  - destruct data as [|x data]; [now rewrite app_nil_r|].
    cbn [groups fold_left].
    rewrite IH.
    + rewrite <- app_assoc. now rewrite take_drop.
    + rewrite length_drop. simpl in *. lia.
Qed.
End DictFacts.

(** ** The walk over the corpus and the selection of files *)

Module SyncFacts.
Import DictFacts.
Arguments MD5.hexdigest : simpl never.

Lemma get_file_hash_content (data : list byte) :
  get_file_hash (Some data) = Ok (MD5.hexdigest data).
Proof.
  unfold get_file_hash. rewrite fold_groups; [reflexivity | lia | lia].
Qed.

Lemma scan_file_entry (df : string) (cur : Dict.t file_info) (f : file_entry) :
  scan_file df cur f
  = match entry_of f with
    | Some i => Dict.set (file_path_of df f) i cur
    | None => cur
    end.
Proof.
  unfold scan_file, entry_of.
  destruct (bool_decide _); [|reflexivity].
  destruct (content f) as [data|]; [|reflexivity].
  now rewrite get_file_hash_content.
Qed.

Lemma scan_keys_NoDup (df : string) (files : list file_entry)
    (acc : Dict.t file_info) :
  List.NoDup (Dict.keys acc) ->
  List.NoDup (Dict.keys (fold_left (scan_file df) files acc)).
Proof.
  revert acc. induction files as [|f files IH]; intros acc Hacc; simpl.
  - exact Hacc.
  - apply IH. rewrite scan_file_entry.
    destruct (entry_of f); [now apply NoDup_keys_set | exact Hacc].
Qed.

Lemma scan_get_other (df : string) (files : list file_entry)
    (acc : Dict.t file_info) (p : string) :
  ~ In p (map (file_path_of df) files) ->
  Dict.get p (fold_left (scan_file df) files acc) = Dict.get p acc.
Proof.
  revert acc. induction files as [|f files IH]; intros acc Hp; simpl.
  - reflexivity.
  - simpl in Hp. rewrite IH by tauto. rewrite scan_file_entry.
    destruct (entry_of f); [|reflexivity].
    apply get_set_ne. tauto.
Qed.

Lemma scan_get (df : string) (files : list file_entry)
    (acc : Dict.t file_info) (f : file_entry) :
  List.NoDup (map (file_path_of df) files) ->
  In f files ->
  Dict.get (file_path_of df f) (fold_left (scan_file df) files acc)
  = match entry_of f with
    | Some i => Some i
    | None => Dict.get (file_path_of df f) acc
    end.
Proof.
  revert acc. induction files as [|g files IH]; intros acc Hnd Hin.
  - destruct Hin.
  - simpl in Hnd. inversion Hnd as [|? ? Hg Hnd']; subst. simpl.
    destruct Hin as [-> | Hin].
    + rewrite scan_get_other by exact Hg. rewrite scan_file_entry.
      destruct (entry_of f); [apply get_set_eq | reflexivity].
    + rewrite (IH _ Hnd' Hin). destruct (entry_of f); [reflexivity|].
      rewrite scan_file_entry. destruct (entry_of g); [|reflexivity].
      apply get_set_ne. intros Heq. apply Hg. rewrite Heq.
      now apply in_map.
Qed.

Lemma selection_filter (cur ledger : Dict.t file_info) :
  new_or_changed_files cur ledger
  = map fst (List.filter
               (fun kv => is_new_or_changed ledger (fst kv) (snd kv)) cur).
Proof.
  unfold new_or_changed_files.
  now rewrite (fold_left_filter
                 (fun kv => is_new_or_changed ledger (fst kv) (snd kv)) fst).
Qed.

Lemma selected_iff (cur ledger : Dict.t file_info) (p : string) :
  List.NoDup (Dict.keys cur) ->
  In p (new_or_changed_files cur ledger)
  <-> exists i, Dict.get p cur = Some i /\ is_new_or_changed ledger p i = true.
Proof.
  intros Hnd. rewrite selection_filter, in_map_iff. split.
  - intros [[k i] [<- Hin]]. apply filter_In in Hin as [Hin Ht].
    exists i. split; [now apply get_In | exact Ht].
  - intros [i [Hget Ht]]. exists (p, i). split; [reflexivity|].
    apply filter_In. split; [now apply get_In | exact Ht].
Qed.

Lemma is_new_or_changed_iff (ledger : Dict.t file_info) (p : string)
    (i : file_info) :
  is_new_or_changed ledger p i = true
  <-> Dict.get p ledger = None
      \/ exists recorded,
           Dict.get p ledger = Some recorded /\ hash recorded <> hash i.
Proof.
  unfold is_new_or_changed. destruct (Dict.get p ledger) as [r|].
  - rewrite negb_true_iff, String.eqb_neq. split.
    + intros H. right. now exists r.
    + intros [H | [r' [H Hne]]]; [discriminate | congruence].
  - split; [now left | reflexivity].
Qed.

(** The walk and the reads do not look at the modification time. *)
Lemma scan_touched (df : string) (files touched : list file_entry)
    (acc : Dict.t file_info) :
  Forall2 same_but_mtime files touched ->
  fold_left (scan_file df) touched acc = fold_left (scan_file df) files acc.
Proof.
  intros H. revert acc.
  induction H as [|f g files touched (Hd & Hn & Hc) _ IH]; intros acc; simpl.
  - reflexivity.
  - rewrite IH. f_equal. unfold scan_file, file_path_of, root_of.
    now rewrite Hd, Hn, Hc.
Qed.

Lemma read_touched (df : string) (files touched : list file_entry)
    (p : string) :
  Forall2 same_but_mtime files touched ->
  read_file df touched p = read_file df files p.
Proof.
  unfold read_file.
  induction 1 as [|f g files touched (Hd & Hn & Hc) _ IH]; simpl.
  - reflexivity.
  - unfold file_path_of, root_of in *. rewrite Hd, Hn.
    destruct (bool_decide _); [now rewrite Hc | exact IH].
Qed.

Lemma sync_touched (extract : string -> option (list byte) -> result string)
    (split_text : splitter -> string -> list string) (df : string)
    (files touched : list file_entry) (st : store) :
  Forall2 same_but_mtime files touched ->
  sync_folder extract split_text df touched st
  = sync_folder extract split_text df files st.
Proof.
  intros H. unfold sync_folder, scan_folder.
  rewrite (scan_touched df files touched [] H).
  rewrite (fold_left_ext
             (process_file extract df touched
                (fold_left (scan_file df) files []))
             (process_file extract df files
                (fold_left (scan_file df) files []))); [reflexivity|].
  intros b a _. unfold process_file. now rewrite (read_touched df files touched a H).
Qed.
End SyncFacts.

(** C1, as the code has it: for every file of the corpus folder with a
    supported extension whose bytes can be read, the sync selects the file
    exactly when its path is absent from the ledger or the recorded hash
    differs from the MD5 digest of its bytes; a change of the modification
    time alone changes nothing of the sync; a change of the bytes causes
    reprocessing whenever the digest of the new bytes differs from the
    recorded one; and a file that has no supported extension or cannot be
    read is never selected. *)
Theorem selected_iff_new_or_hash_differs
    (extract : string -> option (list byte) -> result string)
    (split_text : splitter -> string -> list string)
    (documents_folder : string) (files : list file_entry) (st : store) :
  List.NoDup (map (file_path_of documents_folder) files) ->
  let ledger := load_processed_files_info st in
  let selected :=
    selected_files (sync_folder extract split_text documents_folder files st) in
  (forall (f : file_entry) (data : list byte),
      In f files -> supported f -> content f = Some data ->
      (In (file_path_of documents_folder f) selected
       <-> Dict.get (file_path_of documents_folder f) ledger = None
           \/ exists recorded,
                Dict.get (file_path_of documents_folder f) ledger
                = Some recorded
                /\ hash recorded <> MD5.hexdigest data))
  /\ (forall touched : list file_entry,
        Forall2 same_but_mtime files touched ->
        sync_folder extract split_text documents_folder touched st
        = sync_folder extract split_text documents_folder files st)
  /\ (forall (f : file_entry) (data : list byte) (recorded : file_info),
        In f files -> supported f -> content f = Some data ->
        Dict.get (file_path_of documents_folder f) ledger = Some recorded ->
        MD5.hexdigest data <> hash recorded ->
        In (file_path_of documents_folder f) selected)
  /\ (forall f : file_entry,
        In f files -> ~ supported f \/ content f = None ->
        ~ In (file_path_of documents_folder f) selected).
Proof.
  intros Hnd ledger selected.
  assert (Hsel : selected
                 = new_or_changed_files (scan_folder documents_folder files)
                     ledger).
  { unfold selected, sync_folder.
    now destruct (fold_left _ (new_or_changed_files _ _) []). }
  assert (Hiff : forall (f : file_entry) (data : list byte),
      In f files -> supported f -> content f = Some data ->
      (In (file_path_of documents_folder f) selected
       <-> Dict.get (file_path_of documents_folder f) ledger = None
           \/ exists recorded,
                Dict.get (file_path_of documents_folder f) ledger
                = Some recorded
                /\ hash recorded <> MD5.hexdigest data)).
  { intros f data Hin Hsup Hdata. rewrite Hsel.
    rewrite SyncFacts.selected_iff
      by (apply SyncFacts.scan_keys_NoDup; constructor).
    unfold scan_folder. rewrite (SyncFacts.scan_get _ _ _ _ Hnd Hin).
    unfold entry_of. unfold supported in Hsup.
    rewrite (bool_decide_eq_true_2 _ Hsup), Hdata.
    split.
    - intros [i [Hi Hnew]]. injection Hi as <-.
      now apply SyncFacts.is_new_or_changed_iff in Hnew.
    - intros H. eexists. split; [reflexivity|].
      now apply SyncFacts.is_new_or_changed_iff. }
  split; [exact Hiff | split; [|split]].
  - intros touched Ht. now apply SyncFacts.sync_touched.
  - intros f data recorded Hin Hsup Hdata Hrec Hne.
    apply (Hiff f data Hin Hsup Hdata). right. exists recorded.
    split; [exact Hrec | congruence].
  - intros f Hin Hskip. rewrite Hsel.
    rewrite SyncFacts.selected_iff
      by (apply SyncFacts.scan_keys_NoDup; constructor).
    unfold scan_folder. rewrite (SyncFacts.scan_get _ _ _ _ Hnd Hin).
    assert (Hnone : entry_of f = None).
    { unfold entry_of. destruct Hskip as [Hns | Hc].
      - now rewrite (bool_decide_eq_false_2 _ Hns).
      - rewrite Hc. now destruct (bool_decide _). }
    rewrite Hnone. intros [i [Hi _]]. discriminate Hi.
Qed.

Lemma selected_iff_new_or_hash_differs_witness :
  let files :=
    [mkFile [] "runbook.txt" (Some (bytes_of "Isolate the host.")) 10;
     mkFile ["vendors"] "list.txt" (Some (bytes_of "Acme Corp")) 20] in
  List.NoDup (map (file_path_of "docs") files)
  /\ In "docs/vendors/list.txt"
        (selected_files
           (sync_folder sample_extract fixed_width_split "docs" files
              empty_store)).
Proof.
  intros files.
  assert (Hnd : List.NoDup (map (file_path_of "docs") files)).
  { repeat constructor; simpl; intuition discriminate. }
  split; [exact Hnd|].
  apply (proj1 (selected_iff_new_or_hash_differs sample_extract
                  fixed_width_split "docs" files empty_store Hnd)
           (mkFile ["vendors"] "list.txt" (Some (bytes_of "Acme Corp")) 20)
           (bytes_of "Acme Corp")).
  - right. left. reflexivity.
  - unfold supported. vm_compute. repeat constructor.
  - reflexivity.
  - left. reflexivity.
Defined.

(** C1 as stated fails where MD5 collides: the bytes of an indexed file
    are replaced by different bytes of the same digest, and the next sync
    selects nothing. *)
Lemma md5_collision_counterexample :
  let before := [mkFile [] "notes.txt" (Some collision_a) 1] in
  let after := [mkFile [] "notes.txt" (Some collision_b) 2] in
  let first :=
    sync_folder sample_extract fixed_width_split "docs" before empty_store in
  let second :=
    sync_folder sample_extract fixed_width_split "docs" after
      (store_after first) in
  collision_a <> collision_b
  /\ selected_files first = ["docs/notes.txt"]
  /\ length (returned_documents first) = 1
  /\ selected_files second = [].
Proof.
  split; [|vm_compute; repeat split; reflexivity].
  intros H.
  apply (f_equal (fun l => nth 19 l Byte.x00)) in H.
  vm_compute in H. discriminate H.
Qed.

(** ** Running the sync twice *)

Module TwiceFacts.
Import DictFacts SyncFacts.

Lemma filter_none {A : Type} (test : A -> bool) (l : list A) :
  (forall x, In x l -> test x = false) -> List.filter test l = [].
Proof.
  induction l as [|x l IH]; intros H; simpl; [reflexivity|].
  rewrite (H x) by now left. apply IH. intros y Hy. apply H. now right.
Qed.

(** Once the ledger was updated with the walk's entries, the same walk
    selects nothing. *)
Lemma nothing_selected_after_update (cur ledger : Dict.t file_info) :
  List.NoDup (Dict.keys cur) ->
  new_or_changed_files cur (Dict.update ledger cur) = [].
Proof.
  intros Hnd. rewrite selection_filter, filter_none; [reflexivity|].
  intros [k i] Hin. simpl. unfold is_new_or_changed.
  rewrite (get_update k ledger cur Hnd).
  apply (get_In k i cur Hnd) in Hin. rewrite Hin.
  now rewrite String.eqb_refl.
Qed.

(** A sync that processes no document leaves the store as it was. *)
Lemma store_kept_without_documents
    (extract : string -> option (list byte) -> result string)
    (split_text : splitter -> string -> list string) (df : string)
    (files : list file_entry) (st : store) :
  returned_documents (sync_folder extract split_text df files st) = [] ->
  store_after (sync_folder extract split_text df files st) = st.
Proof.
  unfold sync_folder.
  destruct (fold_left _ (new_or_changed_files _ _) []); [reflexivity|].
  discriminate.
Qed.
End TwiceFacts.

(** C5, as the code has it: the second of two syncs over an unchanged
    corpus returns no document, reports [new_documents = 0] and
    [reused_documents] equal to the number of tracked files, and leaves the
    ledger and the vector index as the first sync left them; when every file
    the first sync selected became a document (or it selected none), the
    second sync selects no file and extracts nothing; when the first sync
    processed no document, the second selects the files the first
    selected. *)
Theorem second_sync_processes_nothing
    (extract : string -> option (list byte) -> result string)
    (split_text : splitter -> string -> list string)
    (documents_folder : string) (files : list file_entry) (st : store) :
  let first := sync_folder extract split_text documents_folder files st in
  let second :=
    sync_folder extract split_text documents_folder files (store_after first) in
  let total := length (scan_folder documents_folder files) in
  returned_documents second = []
  /\ info second = Some (mkProcessing total 0 total)
  /\ store_after second = store_after first
  /\ final_vectorstore second = vectorstore_dir (store_after first)
  /\ (length (returned_documents first) = length (selected_files first) ->
      selected_files second = [] /\ extracted_files second = [])
  /\ (returned_documents first = [] ->
      selected_files second = selected_files first
      /\ extracted_files second = extracted_files first).
Proof.
  intros first second total.
  assert (Hcur : List.NoDup (Dict.keys (scan_folder documents_folder files)))
    by (apply SyncFacts.scan_keys_NoDup; constructor).
  unfold second, first, total, sync_folder.
  set (cur := scan_folder documents_folder files) in *.
  set (sel := new_or_changed_files cur (load_processed_files_info st)).
  destruct (fold_left (process_file extract documents_folder files cur) sel [])
    as [|d ds] eqn:Hdocs.
  - (* nothing was processed: the second sync repeats the first *)
    cbn [store_after]. fold sel. rewrite Hdocs.
    cbn [returned_documents info store_after final_vectorstore
         selected_files extracted_files length].
    rewrite Nat.sub_0_r.
    split; [reflexivity|]. split; [reflexivity|]. split; [reflexivity|].
    split; [reflexivity|]. split; [|intros _; split; reflexivity].
    intros Hall. symmetry in Hall. apply length_zero_iff_nil in Hall.
    now split.
  - (* the ledger was updated: nothing is selected *)
    cbn [store_after load_processed_files_info ledger_file load_vectorstore
         vectorstore_dir].
    rewrite (TwiceFacts.nothing_selected_after_update cur _ Hcur).
    cbn [fold_left returned_documents info store_after final_vectorstore
         selected_files extracted_files length vectorstore_dir].
    rewrite Nat.sub_0_r.
    split; [reflexivity|]. split; [reflexivity|]. split; [reflexivity|].
    split; [reflexivity|]. split; [intros _; split; reflexivity|].
    intros Hnone. discriminate Hnone.
Qed.

Lemma second_sync_processes_nothing_witness :
  let files := [mkFile [] "runbook.txt" (Some (bytes_of "Isolate the host.")) 10] in
  let first :=
    sync_folder sample_extract fixed_width_split "docs" files empty_store in
  let second :=
    sync_folder sample_extract fixed_width_split "docs" files
      (store_after first) in
  length (returned_documents first) = length (selected_files first)
  /\ selected_files second = [] /\ extracted_files second = [].
Proof.
  intros files first second.
  assert (H : length (returned_documents first) = length (selected_files first))
    by (vm_compute; reflexivity).
  split; [exact H|].
  exact (proj1 (proj2 (proj2 (proj2 (proj2
           (second_sync_processes_nothing sample_extract fixed_width_split
              "docs" files empty_store))))) H).
Defined.

(** C5 as stated fails when the first sync skipped every file it selected:
    the ledger is not written, and the second sync selects the same file and
    hands it to the extractor again. *)
Lemma skipped_file_is_extracted_again :
  let files := [mkFile [] "scan.txt" (Some (bytes_of "   ")) 1] in
  let first :=
    sync_folder sample_extract fixed_width_split "docs" files empty_store in
  let second :=
    sync_folder sample_extract fixed_width_split "docs" files
      (store_after first) in
  returned_documents first = []
  /\ selected_files second = ["docs/scan.txt"]
  /\ extracted_files second = ["docs/scan.txt"].
Proof. vm_compute. repeat split; reflexivity. Qed.

(** C2 at a corpus with one readable and one blank file: the blank file is
    skipped, and the ledger written after the sync has an entry for it all
    the same, so the next sync does not select it; the upload intake does the
    same with a batch of a readable and a blank file. *)
Lemma skipped_file_is_recorded :
  let files :=
    [mkFile [] "runbook.txt" (Some (bytes_of "Isolate the host.")) 1;
     mkFile [] "scan.txt" (Some (bytes_of "   ")) 1] in
  let first :=
    sync_folder sample_extract fixed_width_split "docs" files empty_store in
  let second :=
    sync_folder sample_extract fixed_width_split "docs" files
      (store_after first) in
  map page_content (returned_documents first) = ["Isolate the host."]
  /\ selected_files first = ["docs/runbook.txt"; "docs/scan.txt"]
  /\ Dict.mem "docs/scan.txt" (load_processed_files_info (store_after first))
     = true
  /\ selected_files second = []
  /\ match
       process_uploaded_files sample_extract fixed_width_split "docs" 1
         [mkUpload "runbook.txt" (bytes_of "Isolate the host.");
          mkUpload "scan.txt" (bytes_of "   ")]
         [] empty_store
     with
     | Ok out =>
         processed_count out = 1
         /\ Dict.mem "docs/scan.txt"
              (load_processed_files_info (upload_store_after out)) = true
     | Raise _ => False
     end.
Proof. vm_compute. repeat split; reflexivity. Qed.

(** ** The chunking engine *)

Module ChunkFacts.
Import DictFacts.

Section Engine.
Variable split_text : splitter -> string -> list string.

Lemma enumerate_map {A B C : Type} (h : A -> B) (g : nat * B -> C)
    (l : list A) (s : nat) :
  map g (combine (seq s (length (map h l))) (map h l))
  = map (fun jp => g (fst jp, h (snd jp))) (combine (seq s (length l)) l).
Proof.
  revert s. induction l as [|x l IH]; intros s; simpl; [reflexivity|].
  f_equal. apply IH.
Qed.

Lemma enumerate_In {A : Type} (l : list A) (j : nat) (x : A) :
  In (j, x) (enumerate l) <-> nth_error l j = Some x.
Proof.
  unfold enumerate.
  assert (H : forall s, In (j, x) (combine (seq s (length l)) l)
                        <-> s <= j /\ nth_error l (j - s) = Some x).
  { induction l as [|y l IH]; intros s; simpl.
    - split; [intros [] | intros [_ H]; now destruct (j - s)].
    - rewrite IH. split.
      + intros [H | [Hle Hn]].
        * injection H as -> ->. split; [lia|]. now rewrite Nat.sub_diag.
        * split; [lia|]. replace (j - s) with (S (j - S s)) by lia. exact Hn.
      + intros [Hle Hn]. destruct (j - s) as [|k] eqn:Hk.
        * left. injection Hn as ->. f_equal. lia.
        * right. split; [lia|]. replace (j - S s) with k by lia. exact Hn. }
  rewrite H, Nat.sub_0_r. split; [tauto | split; [lia | assumption]].
Qed.

(** The stamping loop appends the stamped pieces of one chunking. *)
Lemma stamp_chunks_tier (doc : Doc) (chunk_type category : string)
    (sp : splitter) (all_chunks : list Doc) :
  stamp_chunks (metadata doc) chunk_type category
    (split_documents split_text sp doc) all_chunks
  = all_chunks ++ tier_chunks split_text doc chunk_type category sp.
Proof.
  unfold stamp_chunks, tier_chunks, split_documents, enumerate.
  rewrite (fold_left_ext _
             (fun all jc =>
                all ++ [mkDoc (page_content (snd jc))
                          (enhanced_metadata (metadata doc) chunk_type (fst jc)
                             (length (map (fun piece => mkDoc piece (metadata doc))
                                        (split_text sp (page_content doc))))
                             category (snd jc))]))
    by (intros b [j c] _; reflexivity).
  rewrite (fold_left_snoc
             (fun jc =>
                mkDoc (page_content (snd jc))
                  (enhanced_metadata (metadata doc) chunk_type (fst jc)
                     (length (map (fun piece => mkDoc piece (metadata doc))
                                (split_text sp (page_content doc))))
                     category (snd jc)))).
  f_equal. rewrite enumerate_map. rewrite length_map. reflexivity.
Qed.

Lemma chunk_document_append (all_chunks : list Doc) (doc : Doc) :
  chunk_document split_text all_chunks doc
  = all_chunks ++ chunks_of split_text doc.
Proof.
  unfold chunks_of, chunk_document, multi_tier, large_splitters,
    medium_splitters.
  destruct (50000 <? _)%Z; [|destruct (5000 <? _)%Z].
  - cbn [enumerate length seq combine fold_left nth].
    rewrite !stamp_chunks_tier, !app_nil_l, <- !app_assoc. reflexivity.
  - cbn [enumerate length seq combine fold_left nth].
    rewrite !stamp_chunks_tier, !app_nil_l, <- !app_assoc. reflexivity.
  - destruct (_ && _); now rewrite !stamp_chunks_tier.
Qed.

Lemma engine_flat_map (documents : list Doc) :
  create_optimized_chunks_for_large_docs split_text documents
  = flat_map (chunks_of split_text) documents.
Proof.
  unfold create_optimized_chunks_for_large_docs.
  rewrite (fold_left_ext _ (fun all doc => all ++ chunks_of split_text doc))
    by (intros; apply chunk_document_append).
  now rewrite fold_left_append.
Qed.

(** The chunkings of one document, by its size. *)
Lemma chunks_of_large (doc : Doc) :
  (50000 < Z.of_nat (String.length (page_content doc)))%Z ->
  chunks_of split_text doc
  = tier_chunks split_text doc "broad" "large"
      (mkSplitter [nl4; nl3; nl2; nl; ". "; ", "; " "] 4000 400)
    ++ tier_chunks split_text doc "detailed" "large"
         (mkSplitter [nl3; nl2; nl; ". "; ", "; " "] 2000 300)
    ++ tier_chunks split_text doc "specific" "large"
         (mkSplitter [nl2; nl; ". "; ", "; " "] 1200 200).
Proof.
  intros H. unfold chunks_of, chunk_document.
  apply Z.ltb_lt in H. rewrite H.
  unfold multi_tier, large_splitters.
  cbn [enumerate length seq combine fold_left nth].
  rewrite !stamp_chunks_tier, !app_nil_l, <- !app_assoc. reflexivity.
Qed.

Lemma chunks_of_medium (doc : Doc) :
  (5000 < Z.of_nat (String.length (page_content doc)) <= 50000)%Z ->
  chunks_of split_text doc
  = tier_chunks split_text doc "standard" "medium"
      (mkSplitter [nl3; nl2; nl; ". "; ", "; " "] 1800 250)
    ++ tier_chunks split_text doc "detailed" "medium"
         (mkSplitter [nl2; nl; ". "; ", "; " "] 1000 150).
Proof.
  intros [H1 H2]. unfold chunks_of, chunk_document.
  apply Z.ltb_lt in H1. rewrite H1.
  assert (H3 : (50000 <? Z.of_nat (String.length (page_content doc)))%Z = false)
    by (apply Z.ltb_ge; exact H2).
  rewrite H3. unfold multi_tier, medium_splitters.
  cbn [enumerate length seq combine fold_left nth].
  now rewrite !stamp_chunks_tier.
Qed.

Lemma chunks_of_small (doc : Doc) :
  (Z.of_nat (String.length (page_content doc)) <= 5000)%Z ->
  chunks_of split_text doc
  = if (length (split_text small_splitter (page_content doc)) =? 1)
       && (1000 <? Z.of_nat (String.length (page_content doc)))%Z
    then tier_chunks split_text doc "standard" "small" aggressive_splitter
    else tier_chunks split_text doc "standard" "small" small_splitter.
Proof.
  intros H. unfold chunks_of, chunk_document.
  assert (H1 : (50000 <? Z.of_nat (String.length (page_content doc)))%Z = false)
    by (apply Z.ltb_ge; lia).
  assert (H2 : (5000 <? Z.of_nat (String.length (page_content doc)))%Z = false)
    by (apply Z.ltb_ge; lia).
  rewrite H1, H2. unfold split_documents at 1. rewrite length_map.
  destruct (_ && _); now rewrite stamp_chunks_tier.
Qed.
End Engine.
End ChunkFacts.

(** C6: the engine chunks every document on its own, by its length in
    characters: above 50,000 three chunkings at 4000/400, 2000/300 and
    1200/200 tagged broad, detailed and specific, all stored; above 5,000 and
    up to 50,000 two chunkings at 1800/250 and 1000/150 tagged standard and
    detailed; up to 5,000 one chunking at 1000/150 tagged standard, replaced
    by one at 800/100 whose separators go down to the single character when
    the first yields exactly one chunk and the document has more than 1000
    characters. *)
Theorem chunking_is_tiered_by_size
    (split_text : splitter -> string -> list string) :
  (forall documents : list Doc,
      create_optimized_chunks_for_large_docs split_text documents
      = flat_map
          (fun doc => create_optimized_chunks_for_large_docs split_text [doc])
          documents)
  /\ forall doc : Doc,
      let n := Z.of_nat (String.length (page_content doc)) in
      let chunks := create_optimized_chunks_for_large_docs split_text [doc] in
      ((50000 < n)%Z ->
       chunks
       = tier_chunks split_text doc "broad" "large"
           (mkSplitter [nl4; nl3; nl2; nl; ". "; ", "; " "] 4000 400)
         ++ tier_chunks split_text doc "detailed" "large"
              (mkSplitter [nl3; nl2; nl; ". "; ", "; " "] 2000 300)
         ++ tier_chunks split_text doc "specific" "large"
              (mkSplitter [nl2; nl; ". "; ", "; " "] 1200 200))
      /\ ((5000 < n <= 50000)%Z ->
          chunks
          = tier_chunks split_text doc "standard" "medium"
              (mkSplitter [nl3; nl2; nl; ". "; ", "; " "] 1800 250)
            ++ tier_chunks split_text doc "detailed" "medium"
                 (mkSplitter [nl2; nl; ". "; ", "; " "] 1000 150))
      /\ ((n <= 5000)%Z ->
          chunks
          = if (length
                  (split_text
                     (mkSplitter [nl3; nl2; nl; ". "; "; "; ", "; " "] 1000 150)
                     (page_content doc)) =? 1)
               && (1000 <? n)%Z
            then tier_chunks split_text doc "standard" "small"
                   (mkSplitter [nl; ". "; "; "; ", "; " "; ""] 800 100)
            else tier_chunks split_text doc "standard" "small"
                   (mkSplitter [nl3; nl2; nl; ". "; "; "; ", "; " "] 1000 150)).
Proof.
  assert (Hone : forall doc,
             create_optimized_chunks_for_large_docs split_text [doc]
             = chunks_of split_text doc).
  { intros doc. rewrite ChunkFacts.engine_flat_map. simpl. apply app_nil_r. }
  split.
  - intros documents. rewrite ChunkFacts.engine_flat_map.
    induction documents as [|d ds IH]; simpl; [reflexivity|].
    now rewrite IH, Hone.
  - intros doc n chunks. unfold chunks. rewrite Hone. repeat split.
    + apply ChunkFacts.chunks_of_large.
    + apply ChunkFacts.chunks_of_medium.
    + apply ChunkFacts.chunks_of_small.
Qed.

Lemma chunking_is_tiered_by_size_witness :
  ((50000 < Z.of_nat (String.length (page_content (sample_document 50001))))%Z
   /\ map (fun c => Dict.get "chunk_type" (metadata c))
          (create_optimized_chunks_for_large_docs (fun _ _ => ["piece"])
             [sample_document 50001])
      = [Some (MStr "broad"); Some (MStr "detailed"); Some (MStr "specific")])
  /\ ((5000 < Z.of_nat (String.length (page_content (sample_document 5001)))
       <= 50000)%Z
      /\ length (create_optimized_chunks_for_large_docs fixed_width_split
                   [sample_document 5001]) = 3 + 6)
  /\ ((Z.of_nat (String.length (page_content (sample_document 1001))) <= 5000)%Z
      /\ length (create_optimized_chunks_for_large_docs (fun _ _ => ["piece"])
                   [sample_document 1001]) = 1).
Proof.
  split; [|split].
  - assert (H : (50000 < Z.of_nat (String.length
                                     (page_content (sample_document 50001))))%Z)
      by (vm_compute; reflexivity).
    split; [exact H|].
    rewrite (proj1 (proj2 (chunking_is_tiered_by_size (fun _ _ => ["piece"]))
                      (sample_document 50001)) H).
    reflexivity.
  - assert (H : (5000 < Z.of_nat (String.length
                                    (page_content (sample_document 5001)))
                 <= 50000)%Z)
      by (split; vm_compute; [reflexivity | discriminate]).
    split; [exact H|].
    rewrite (proj1 (proj2 (proj2 (chunking_is_tiered_by_size fixed_width_split)
                             (sample_document 5001))) H).
    vm_compute. reflexivity.
  - assert (H : (Z.of_nat (String.length (page_content (sample_document 1001)))
                 <= 5000)%Z)
      by (vm_compute; discriminate).
    split; [exact H|].
    rewrite (proj2 (proj2 (proj2 (chunking_is_tiered_by_size
                                    (fun _ _ => ["piece"]))
                             (sample_document 1001))) H).
    vm_compute. reflexivity.
Defined.

(** ** Stamps and provenance *)

Module StampFacts.
Import DictFacts.

(** The keys the engine writes. *)
Lemma stamps_NoDup (a b c d e : meta_value) :
  List.NoDup
    (Dict.keys
       [("chunk_type", a); ("chunk_index", b); ("total_chunks", c);
        ("doc_size_category", d); ("chunk_size", e)]).
Proof. repeat constructor; simpl; intuition discriminate. Qed.

(** A chunk of one chunking: its text is one of the pieces, and its
    metadata is the document's with the five stamps. *)
Lemma tier_chunks_In (split_text : splitter -> string -> list string)
    (doc chunk : Doc) (chunk_type category : string) (sp : splitter) :
  In chunk (tier_chunks split_text doc chunk_type category sp) ->
  exists j,
    nth_error (split_text sp (page_content doc)) j = Some (page_content chunk)
    /\ metadata chunk
       = Dict.update (metadata doc)
           [("chunk_type", MStr chunk_type);
            ("chunk_index", MInt j);
            ("total_chunks",
             MInt (length (split_text sp (page_content doc))));
            ("doc_size_category", MStr category);
            ("chunk_size", MInt (String.length (page_content chunk)))].
Proof.
  unfold tier_chunks. rewrite in_map_iff.
  intros [[j piece] [<- Hin]]. apply ChunkFacts.enumerate_In in Hin.
  exists j. split; [exact Hin | reflexivity].
Qed.

(** Every chunk of a document belongs to one chunking of the document's
    size category. *)
Lemma chunks_of_tier (split_text : splitter -> string -> list string)
    (doc chunk : Doc) :
  In chunk (chunks_of split_text doc) ->
  exists chunk_type sp,
    In chunk_type ["broad"; "detailed"; "specific"; "standard"]
    /\ In chunk
         (tier_chunks split_text doc chunk_type (size_category doc) sp).
Proof.
  unfold size_category.
  destruct (50000 <? Z.of_nat (String.length (page_content doc)))%Z eqn:H1;
    [|destruct (5000 <? Z.of_nat (String.length (page_content doc)))%Z eqn:H2].
  - rewrite ChunkFacts.chunks_of_large by now apply Z.ltb_lt.
    rewrite !in_app_iff. intros [H | [H | H]]; eauto 10 using in_eq, in_cons.
  - rewrite ChunkFacts.chunks_of_medium
      by (split; [now apply Z.ltb_lt | now apply Z.ltb_ge]).
    rewrite !in_app_iff. intros [H | H]; eauto 10 using in_eq, in_cons.
  - rewrite ChunkFacts.chunks_of_small by now apply Z.ltb_ge.
    destruct (_ && _); intros H; eauto 10 using in_eq, in_cons.
Qed.

Section SyncDocuments.
Variable extract : string -> option (list byte) -> result string.
Variable df : string.
Variable files : list file_entry.

(** A key of the walk's dictionary is the path of a file of the folder,
    with the entry computed for that file. *)
Lemma scan_get_file (acc : Dict.t file_info) (p : string) (i : file_info)
    (fs : list file_entry) :
  Dict.get p (fold_left (scan_file df) fs acc) = Some i ->
  (exists f, In f fs /\ file_path_of df f = p /\ entry_of f = Some i)
  \/ Dict.get p acc = Some i.
Proof.
  revert acc. induction fs as [|g fs IH]; intros acc; simpl; [now right|].
  intros H. apply IH in H as [(f & Hin & Hp & He) | H].
  - left. exists f. auto.
  - rewrite SyncFacts.scan_file_entry in H.
    destruct (entry_of g) as [ig|] eqn:Hg; [|now right].
    destruct (decide (file_path_of df g = p)) as [Hp | Hp].
    + subst p. rewrite get_set_eq in H. injection H as ->.
      left. exists g. auto.
    + rewrite get_set_ne in H by exact Hp. now right.
Qed.

(** The documents the sync builds name the file they were read from. *)
Lemma process_file_provenance (cur : Dict.t file_info) (sel : list string)
    (acc : list Doc) (P : Doc -> Prop) :
  (forall d, In d acc -> P d) ->
  (forall p i text,
      Dict.get p cur = Some i ->
      P (mkDoc text
           [("source", MStr (name i)); ("file_path", MStr p);
            ("file_type", MStr (extension i)); ("folder", MStr (folder i))])) ->
  forall d, In d (fold_left (process_file extract df files cur) sel acc) -> P d.
Proof.
  intros Hacc Hnew. revert acc Hacc.
  induction sel as [|p sel IH]; intros acc Hacc; simpl; [exact Hacc|].
  apply IH. unfold process_file.
  destruct (extract p (read_file df files p)) as [text|]; [|exact Hacc].
  destruct (PyStr.strip_nonempty text); [|exact Hacc].
  destruct (Dict.get p cur) as [i|] eqn:Hi; [|exact Hacc].
  intros d Hd. apply in_app_iff in Hd as [Hd | [<- | []]]; [now apply Hacc|].
  now apply Hnew.
Qed.

Lemma sync_documents_provenance
    (split_text : splitter -> string -> list string) (st : store) (d : Doc) :
  In d (returned_documents (sync_folder extract split_text df files st)) ->
  exists f,
    In f files
    /\ Dict.get "source" (metadata d) = Some (MStr (fname f))
    /\ Dict.get "file_path" (metadata d) = Some (MStr (file_path_of df f))
    /\ Dict.get "folder" (metadata d) = Some (MStr (relpath (dir f))).
Proof.
  intros Hd.
  assert (Hdocs : In d (fold_left
                          (process_file extract df files (scan_folder df files))
                          (new_or_changed_files (scan_folder df files)
                             (load_processed_files_info st)) [])).
  { unfold sync_folder in Hd.
    destruct (fold_left _ (new_or_changed_files _ _) []); exact Hd. }
  clear Hd. revert d Hdocs. apply process_file_provenance; [intros d []|].
  intros p i text Hi. unfold scan_folder in Hi.
  apply scan_get_file in Hi as [(f & Hin & Hp & He) | Hi]; [|discriminate].
  exists f. split; [exact Hin|]. subst p.
  unfold entry_of in He. destruct (bool_decide _); [|discriminate].
  destruct (content f); [|discriminate]. injection He as <-.
  repeat split; reflexivity.
Qed.
End SyncDocuments.

Section UploadDocuments.
Variable extract : string -> option (list byte) -> result string.
Variable df : string.
Variable now : Z.

(** The documents the upload intake builds name the uploaded file. *)
Lemma upload_one_provenance (uploads : list uploaded_file)
    (state : upload_state) (P : Doc -> Prop) :
  (forall d, In d (snd state) -> P d) ->
  (forall u text,
      In u uploads ->
      P (mkDoc text
           [("source", MStr (up_name u));
            ("file_path", MStr (path_join df (up_name u)));
            ("file_type", MStr (PyStr.lower (splitext_ext (up_name u))));
            ("folder", MStr "")])) ->
  forall d,
    In d (snd (fold_left (upload_one extract df now) uploads state)) -> P d.
Proof.
  revert state. induction uploads as [|u uploads IH]; intros state Hacc Hnew;
    simpl; [exact Hacc|].
  apply IH; [|intros u' text Hu'; apply Hnew; now right].
  destruct state as [[fs saved_files] docs]. unfold upload_one.
  destruct (extract _ _) as [text|]; [|exact Hacc].
  destruct (PyStr.strip_nonempty text); [|exact Hacc].
  simpl. intros d Hd. apply in_app_iff in Hd as [Hd | [<- | []]].
  - now apply Hacc.
  - apply Hnew. now left.
Qed.
End UploadDocuments.
End StampFacts.



(** ** The chat handler *)




(** * Further properties of the code *)

(** ** The retrieval gate *)

Module GateMore.
Import PyStr PyStrFacts.

Lemma lower_char_idem (c : ascii) : lower_char (lower_char c) = lower_char c.
Proof. destruct c as [[] [] [] [] [] [] [] []]; reflexivity. Qed.

Lemma lower_idem (s : string) : lower (lower s) = lower s.
Proof.
  induction s as [|c s IH]; simpl; [reflexivity|].
  now rewrite lower_char_idem, IH.
Qed.

Lemma overlap_at_most_one (m : gset string) (t : Q) (chunk : Doc) :
  m <> ∅ -> (1 < t)%Q -> overlap_reaches m t chunk = false.
Proof.
  intros Hm Ht. apply GateFacts.size_meaningful_pos in Hm.
  apply not_true_is_false. unfold overlap_reaches.
  rewrite Qle_bool_iff. intros Hle.
  destruct (FloatFacts.true_divide_bounds _ _
              (GateFacts.overlap_counts m chunk) ltac:(lia))
    as ((_ & Hone) & _).
  lra.
Qed.

Lemma overlap_below_zero (m : gset string) (t : Q) (chunk : Doc) :
  (t <= 0)%Q -> overlap_reaches m t chunk = true.
Proof.
  intros Ht. unfold overlap_reaches. rewrite Qle_bool_iff.
  destruct (decide (size m = 0)) as [H0 | Hpos].
  - pose proof (GateFacts.overlap_counts m chunk) as Hle.
    replace (size (m ∩ word_set (page_content chunk))) with 0 by lia.
    exact Ht.
  - destruct (FloatFacts.true_divide_bounds _ _
                (GateFacts.overlap_counts m chunk) ltac:(lia))
      as ((Hzero & _) & _).
    lra.
Qed.

Lemma overlap_lower_threshold (m : gset string) (t t' : Q) (chunk : Doc) :
  (t' <= t)%Q ->
  overlap_reaches m t chunk = true -> overlap_reaches m t' chunk = true.
Proof.
  unfold overlap_reaches. rewrite !Qle_bool_iff. intros H1 H2.
  now apply (Qle_trans _ t).
Qed.
End GateMore.

(** X1: lowering the threshold never turns an acceptance into a rejection;
    a threshold of zero or less accepts every chunk list that is not empty;
    a threshold above one rejects every query that has a meaningful term. *)
Theorem gate_threshold_is_monotone (query : string) (chunks : list Doc) :
  (forall t t' : Q,
      (t' <= t)%Q ->
      validate_chunk_relevance query chunks t = true ->
      validate_chunk_relevance query chunks t' = true)
  /\ (forall t : Q,
        (t <= 0)%Q -> chunks <> [] ->
        validate_chunk_relevance query chunks t = true)
  /\ (forall t : Q,
        (1 < t)%Q -> meaningful_terms query <> ∅ ->
        validate_chunk_relevance query chunks t = false).
Proof.
  split; [|split].
  - intros t t' Hle. destruct chunks as [|c cs]; [discriminate|].
    unfold validate_chunk_relevance.
    destruct (decide (meaningful_terms query = ∅)); [reflexivity|].
    rewrite !GateFacts.scan_chunks_spec.
    intros [x [Hin Hx]]. exists x. split; [exact Hin|].
    now apply (GateMore.overlap_lower_threshold _ t).
  - intros t Ht Hne. destruct chunks as [|c cs]; [now contradiction Hne|].
    unfold validate_chunk_relevance.
    destruct (decide (meaningful_terms query = ∅)); [reflexivity|].
    apply GateFacts.scan_chunks_spec. exists c.
    split; [now left | now apply GateMore.overlap_below_zero].
  - intros t Ht Hm. destruct chunks as [|c cs]; [reflexivity|].
    unfold validate_chunk_relevance.
    destruct (decide (meaningful_terms query = ∅)) as [He|_];
      [now contradiction Hm|].
    apply not_true_is_false. intros Hv.
    apply GateFacts.scan_chunks_spec in Hv as [x [_ Hx]].
    now rewrite (GateMore.overlap_at_most_one _ t x Hm Ht) in Hx.
Qed.

Lemma gate_threshold_is_monotone_witness :
  ((1 # 4) <= (1 # 2))%Q
  /\ validate_chunk_relevance "pass the ticket"
       [mkDoc "a golden ticket attack" []] (1 # 2) = true
  /\ validate_chunk_relevance "pass the ticket"
       [mkDoc "a golden ticket attack" []] (1 # 4) = true.
Proof.
  assert (Hle : ((1 # 4) <= (1 # 2))%Q) by (vm_compute; discriminate).
  assert (Hv : validate_chunk_relevance "pass the ticket"
                 [mkDoc "a golden ticket attack" []] (1 # 2) = true)
    by (vm_compute; reflexivity).
  split; [exact Hle|]. split; [exact Hv|].
  exact (proj1 (gate_threshold_is_monotone "pass the ticket"
                  [mkDoc "a golden ticket attack" []]) _ _ Hle Hv).
Defined.

(** X2: the verdict depends on which chunks were retrieved, not on their
    order or number: when a chunk list is accepted, every chunk list that
    contains its chunks is accepted too. *)
Theorem gate_accepts_more_chunks (query : string) (chunks more : list Doc)
    (threshold : Q) :
  validate_chunk_relevance query chunks threshold = true ->
  (forall chunk, In chunk chunks -> In chunk more) ->
  validate_chunk_relevance query more threshold = true.
Proof.
  intros Hv Hsub. destruct chunks as [|c cs]; [discriminate|].
  destruct more as [|c' cs']; [destruct (Hsub c (or_introl eq_refl))|].
  unfold validate_chunk_relevance in *.
  destruct (decide (meaningful_terms query = ∅)); [reflexivity|].
  apply GateFacts.scan_chunks_spec in Hv as [x [Hin Hx]].
  apply GateFacts.scan_chunks_spec. exists x. split; [now apply Hsub | exact Hx].
Qed.

Lemma gate_accepts_more_chunks_witness :
  validate_chunk_relevance "pass the ticket"
    [mkDoc "Password spray" []; mkDoc "forged ticket" []] strict_threshold
  = true
  /\ validate_chunk_relevance "pass the ticket"
       [mkDoc "forged ticket" []; mkDoc "Kerberoasting" [];
        mkDoc "Password spray" []] strict_threshold
     = true.
Proof.
  assert (Hv : validate_chunk_relevance "pass the ticket"
                 [mkDoc "Password spray" []; mkDoc "forged ticket" []]
                 strict_threshold = true) by (vm_compute; reflexivity).
  split; [exact Hv|].
  apply (gate_accepts_more_chunks _ _ _ _ Hv).
  intros chunk [<- | [<- | []]]; simpl; auto.
Defined.

(** X3: the gate ignores letter case and metadata: two queries with the
    same lowercase form, against chunk lists whose texts have the same
    lowercase forms, get the same verdict; in particular lowercasing the
    query and every chunk changes nothing. *)
Theorem gate_ignores_letter_case (threshold : Q) :
  (forall (query query' : string) (chunks chunks' : list Doc),
      PyStr.lower query = PyStr.lower query' ->
      Forall2 (fun c c' =>
                 PyStr.lower (page_content c) = PyStr.lower (page_content c'))
              chunks chunks' ->
      validate_chunk_relevance query chunks threshold
      = validate_chunk_relevance query' chunks' threshold)
  /\ (forall (query : string) (chunks : list Doc),
        validate_chunk_relevance (PyStr.lower query)
          (map (fun c => mkDoc (PyStr.lower (page_content c)) []) chunks)
          threshold
        = validate_chunk_relevance query chunks threshold).
Proof.
  assert (Hgen : forall (query query' : string) (chunks chunks' : list Doc),
      PyStr.lower query = PyStr.lower query' ->
      Forall2 (fun c c' =>
                 PyStr.lower (page_content c) = PyStr.lower (page_content c'))
              chunks chunks' ->
      validate_chunk_relevance query chunks threshold
      = validate_chunk_relevance query' chunks' threshold).
  { intros query query' chunks chunks' Hq Hc.
    assert (Hm : meaningful_terms query = meaningful_terms query')
      by (unfold meaningful_terms, word_set; now rewrite Hq).
    assert (Hscan : scan_chunks (meaningful_terms query) threshold chunks
                    = scan_chunks (meaningful_terms query') threshold chunks').
    { rewrite <- Hm. clear Hm Hq.
      induction Hc as [|c c' cs cs' Hcc _ IH]; simpl; [reflexivity|].
      unfold overlap_reaches, word_set. rewrite Hcc.
      fold (word_set (page_content c')).
      change (Qle_bool threshold _)
        with (overlap_reaches (meaningful_terms query) threshold c').
      now rewrite IH. }
    unfold validate_chunk_relevance.
    destruct Hc as [|c c' cs cs' Hcc Hrest]; [reflexivity|].
    rewrite <- Hm in *.
    destruct (decide (meaningful_terms query = ∅)); [reflexivity|].
    exact Hscan. }
  split; [exact Hgen|].
  intros query chunks. apply Hgen.
  - apply GateMore.lower_idem.
  - induction chunks as [|c cs IH]; constructor; [|exact IH].
    simpl. apply GateMore.lower_idem.
Qed.

Lemma gate_ignores_letter_case_witness :
  validate_chunk_relevance "PASS the Ticket"
    [mkDoc "Pass The Ticket attacks" [("source", MStr "a.txt")]]
    strict_threshold
  = validate_chunk_relevance "pass the ticket"
      [mkDoc "pass the ticket ATTACKS" []] strict_threshold.
Proof.
  apply (proj1 (gate_ignores_letter_case strict_threshold)).
  - reflexivity.
  - constructor; [reflexivity | constructor].
Defined.

(** ** The query rewrite *)

Module RewriteMore.
Import PyStr PyStrFacts.

Lemma str_app_eq_app (a b c d : string) :
  a +:+ b = c +:+ d ->
  (exists m, c = a +:+ m /\ b = m +:+ d)
  \/ (exists m, a = c +:+ m /\ d = m +:+ b).
Proof.
  revert c. induction a as [|x a IH]; intros c H.
  - left. now exists c.
  - destruct c as [|y c].
    + right. exists (String x a). simpl in *. auto.
    + simpl in H. injection H as -> H.
      destruct (IH c H) as [(m & -> & ->) | (m & -> & ->)].
      * left. now exists m.
      * right. now exists m.
Qed.

Lemma lacks_app (c : ascii) (a b : string) :
  lacks c (a +:+ b) = lacks c a && lacks c b.
Proof.
  induction a as [|x a IH]; simpl; [reflexivity|].
  now rewrite IH, andb_assoc.
Qed.

Lemma lacks_head (c : ascii) (s : string) : lacks c (String c s) = false.
Proof. simpl. now rewrite bool_decide_eq_true_2. Qed.

(** A word without a blank occurs in [a], a blank, [r] only inside [a] or
    inside [r]. *)
Lemma occurs_across_blank (w a r : string) :
  lacks " " w = true ->
  occurs w (a +:+ String " " r) <-> occurs w a \/ occurs w r.
Proof.
  intros Hw. split.
  - intros (pre & post & H).
    apply str_app_eq_app in H as [(m & -> & H) | (m & -> & H)].
    + destruct m as [|c m]; simpl in H.
      * destruct w as [|c w]; [left; now exists "", a|].
        simpl in H. injection H as <- _. now rewrite lacks_head in Hw.
      * injection H as <- ->. right. now exists m, post.
    + apply str_app_eq_app in H as [(k & -> & ->) | (k & -> & H)].
      * left. now exists pre, k.
      * destruct k as [|c k]; simpl in H.
        -- left. exists pre, "". now rewrite !append_empty_r.
        -- injection H as <- _.
           rewrite lacks_app, lacks_head, andb_false_r in Hw. discriminate.
  - intros [(pre & post & ->) | (pre & post & ->)].
    + exists pre, (post +:+ String " " r). now rewrite !append_assoc.
    + exists (a +:+ String " " pre), post. rewrite !append_assoc. reflexivity.
Qed.

Lemma contains_across_blank (w a r : string) :
  lacks " " w = true ->
  contains w (a +:+ String " " r) = contains w a || contains w r.
Proof.
  intros Hw. apply eq_true_iff_eq.
  rewrite orb_true_iff, !contains_spec. now apply occurs_across_blank.
Qed.

(** The rewrite by its two tests. *)
Lemma enhance_by_tests (question : string) :
  enhance_query_for_better_retrieval question
  = if post_incident_test question then question +:+ " post-incident"
    else if investigation_test question then question +:+ " investigation"
    else question.
Proof.
  unfold enhance_query_for_better_retrieval, post_incident_test,
    investigation_test.
  destruct (any_in ["after"; "post"; "following"] (lower question)
            && negb (contains "incident" (lower question)));
    destruct (any_in ["investigate"; "analysis"; "review"] (lower question)
              && negb (contains "investigation" (lower question)));
    reflexivity.
Qed.

(** The tests on a question that already carries an appended term. *)
Lemma tests_after_post_incident (question : string) :
  post_incident_test (question +:+ " post-incident") = false
  /\ investigation_test (question +:+ " post-incident")
     = investigation_test question.
Proof.
  unfold post_incident_test, investigation_test, any_in, existsb.
  rewrite lower_app.
  change (lower " post-incident") with (String " " "post-incident").
  rewrite !contains_across_blank by reflexivity.
  change (contains "after" "post-incident") with false.
  change (contains "post" "post-incident") with true.
  change (contains "following" "post-incident") with false.
  change (contains "incident" "post-incident") with true.
  change (contains "investigate" "post-incident") with false.
  change (contains "analysis" "post-incident") with false.
  change (contains "review" "post-incident") with false.
  change (contains "investigation" "post-incident") with false.
  rewrite ?orb_false_r, ?orb_true_r. simpl negb.
  rewrite ?andb_false_r. split; reflexivity.
Qed.

Lemma tests_after_investigation (question : string) :
  investigation_test (question +:+ " investigation") = false
  /\ post_incident_test (question +:+ " investigation")
     = post_incident_test question.
Proof.
  unfold post_incident_test, investigation_test, any_in, existsb.
  rewrite lower_app.
  change (lower " investigation") with (String " " "investigation").
  rewrite !contains_across_blank by reflexivity.
  change (contains "investigation" "investigation") with true.
  change (contains "investigate" "investigation") with false.
  change (contains "analysis" "investigation") with false.
  change (contains "review" "investigation") with false.
  change (contains "after" "investigation") with false.
  change (contains "post" "investigation") with false.
  change (contains "following" "investigation") with false.
  change (contains "incident" "investigation") with false.
  rewrite ?orb_false_r, ?orb_true_r. simpl negb.
  rewrite ?andb_false_r. split; reflexivity.
Qed.
End RewriteMore.

(** X4: the rewrite keeps the question as the start of its result, and it
    settles after two applications: rewriting a rewritten question can still
    append the second term, a third application changes nothing; a question
    that already contains both "incident" and "investigation" is never
    changed. *)
Theorem rewrite_settles_after_two (question : string) :
  let once := enhance_query_for_better_retrieval question in
  let twice := enhance_query_for_better_retrieval once in
  (exists appended, once = question +:+ appended)
  /\ enhance_query_for_better_retrieval twice = twice
  /\ (occurs "incident" (PyStr.lower question) ->
      occurs "investigation" (PyStr.lower question) ->
      once = question)
  /\ enhance_query_for_better_retrieval
       (enhance_query_for_better_retrieval "Review after the breach")
     <> enhance_query_for_better_retrieval "Review after the breach".
Proof.
  intros once twice. unfold twice, once.
  destruct (RewriteMore.tests_after_post_incident question) as [Hp1 Hp2].
  destruct (RewriteMore.tests_after_investigation question) as [Hi1 Hi2].
  split; [|split; [|split]].
  - rewrite RewriteMore.enhance_by_tests.
    destruct (post_incident_test question); [now eexists|].
    destruct (investigation_test question); [now eexists|].
    exists "". now rewrite PyStrFacts.append_empty_r.
  - rewrite (RewriteMore.enhance_by_tests question).
    destruct (post_incident_test question) eqn:H1.
    + rewrite (RewriteMore.enhance_by_tests (question +:+ " post-incident")).
      rewrite Hp1, Hp2.
      destruct (investigation_test question) eqn:H2.
      * rewrite RewriteMore.enhance_by_tests.
        destruct (RewriteMore.tests_after_investigation
                    (question +:+ " post-incident")) as [Hq1 Hq2].
        rewrite ?Hq1, ?Hq2, ?Hp1. reflexivity.
      * rewrite RewriteMore.enhance_by_tests.
        rewrite ?Hp1, ?Hp2, ?H2. reflexivity.
    + destruct (investigation_test question) eqn:H2.
      * rewrite (RewriteMore.enhance_by_tests (question +:+ " investigation")).
        rewrite ?Hi1, ?Hi2, ?H1.
        rewrite RewriteMore.enhance_by_tests.
        rewrite ?Hi1, ?Hi2, ?H1. reflexivity.
      * do 2 (rewrite (RewriteMore.enhance_by_tests question), ?H1, ?H2).
        reflexivity.
  - intros Hinc Hinv. rewrite RewriteMore.enhance_by_tests.
    apply PyStrFacts.contains_spec in Hinc, Hinv.
    unfold post_incident_test, investigation_test.
    now rewrite Hinc, Hinv, !andb_false_r.
  - vm_compute. discriminate.
Qed.

Lemma rewrite_settles_after_two_witness :
  occurs "incident" (PyStr.lower "Post-incident investigation review")
  /\ occurs "investigation" (PyStr.lower "Post-incident investigation review")
  /\ enhance_query_for_better_retrieval "Post-incident investigation review"
     = "Post-incident investigation review".
Proof.
  assert (H1 : occurs "incident"
                 (PyStr.lower "Post-incident investigation review"))
    by (apply PyStrFacts.contains_spec; vm_compute; reflexivity).
  assert (H2 : occurs "investigation"
                 (PyStr.lower "Post-incident investigation review"))
    by (apply PyStrFacts.contains_spec; vm_compute; reflexivity).
  split; [exact H1|]. split; [exact H2|].
  exact (proj1 (proj2 (proj2 (rewrite_settles_after_two
                                "Post-incident investigation review")))
           H1 H2).
Defined.

(** ** Hashing and the walk over the folder *)

Module WalkMore.
Import PyStr PyStrFacts DictFacts.

Lemma split_on_nonempty (sep : ascii) (cur s : string) :
  split_on sep cur s <> [].
Proof.
  revert cur. induction s as [|c s IH]; intros cur; simpl; [discriminate|].
  destruct (decide (c = sep)); [discriminate | apply IH].
Qed.

Lemma last_cons {A : Type} (x : A) (l : list A) (d : A) :
  l <> [] -> List.last (x :: l) d = List.last l d.
Proof. destruct l; [intros H; now contradiction H | reflexivity]. Qed.

(** The last piece of a split is an end of the text. *)
Lemma split_on_last_suffix (sep : ascii) (s cur d : string) :
  exists pre, cur +:+ s = pre +:+ List.last (split_on sep cur s) d.
Proof.
  revert cur. induction s as [|c s IH]; intros cur; simpl.
  - exists "". now rewrite append_empty_r.
  - destruct (decide (c = sep)) as [->|Hc].
    + rewrite last_cons by apply split_on_nonempty.
      destruct (IH "") as [pre Hpre]. simpl in Hpre.
      exists (cur +:+ String sep pre). rewrite append_assoc. simpl.
      now rewrite <- Hpre.
    + destruct (IH (cur +:+ String c "")) as [pre Hpre].
      exists pre. rewrite <- Hpre. now rewrite append_assoc.
Qed.

Lemma split_on_lacks (sep : ascii) (t cur : string) :
  lacks sep t = true -> split_on sep cur t = [cur +:+ t].
Proof.
  revert cur. induction t as [|c t IH]; intros cur H; simpl in *.
  - now rewrite append_empty_r.
  - apply andb_true_iff in H as [Hc Ht]. apply negb_true_iff in Hc.
    apply bool_decide_eq_false in Hc.
    destruct (decide (c = sep)); [contradiction|].
    rewrite IH by exact Ht. now rewrite append_assoc.
Qed.

(** The text after the last occurrence of the separator. *)
Lemma last_split_on (sep : ascii) (front t cur d : string) :
  lacks sep t = true ->
  List.last (split_on sep cur (front +:+ String sep t)) d = t.
Proof.
  intros Ht. revert cur. induction front as [|c front IH]; intros cur; simpl.
  - destruct (decide (sep = sep)); [|contradiction].
    now rewrite split_on_lacks.
  - destruct (decide (c = sep)).
    + rewrite last_cons by apply split_on_nonempty. apply IH.
    + apply IH.
Qed.

Lemma skip_dots_suffix (s : string) : exists pre, s = pre +:+ skip_dots s.
Proof.
  induction s as [|c s IH]; simpl; [now exists ""|].
  destruct (decide (c = "."%char)); [|now exists ""].
  destruct IH as [pre Hpre]. exists (String c pre). simpl. now rewrite <- Hpre.
Qed.

Lemma from_last_dot_none (s : string) :
  from_last_dot s = None -> lacks "." s = true.
Proof.
  induction s as [|c s IH]; simpl; [reflexivity|].
  destruct (from_last_dot s); [discriminate|].
  destruct (decide (c = "."%char)); [discriminate|].
  intros _. rewrite IH by reflexivity.
  now rewrite bool_decide_eq_false_2.
Qed.

Lemma from_last_dot_some (s e : string) :
  from_last_dot s = Some e ->
  exists pre t,
    s = pre +:+ String "." t /\ e = String "." t /\ lacks "." t = true.
Proof.
  revert e. induction s as [|c s IH]; intros e; simpl; [discriminate|].
  destruct (from_last_dot s) as [e'|] eqn:Hs.
  - intros H. injection H as <-.
    destruct (IH e' eq_refl) as (pre & t & -> & -> & Ht).
    now exists (String c pre), t.
  - destruct (decide (c = "."%char)) as [->|]; [|discriminate].
    intros H. injection H as <-. exists "", s.
    repeat split. now apply from_last_dot_none.
Qed.

(** A non-empty extension is the end of the name, from its last dot. *)
Lemma splitext_ext_suffix (p : string) :
  splitext_ext p <> "" ->
  exists pre t,
    p = pre +:+ String "." t /\ splitext_ext p = String "." t
    /\ lacks "." t = true.
Proof.
  unfold splitext_ext, basename.
  destruct (split_on_last_suffix "/" p "" "") as [pre1 H1]. simpl in H1.
  destruct (skip_dots_suffix (List.last (split_on "/" "" p) "")) as [pre2 H2].
  destruct (from_last_dot _) as [e|] eqn:He; [|intros H; now contradiction H].
  intros _. apply from_last_dot_some in He as (pre3 & t & H3 & -> & Ht).
  exists (pre1 +:+ pre2 +:+ pre3), t. repeat split; [|exact Ht].
  rewrite H1 at 1. rewrite H2 at 1. rewrite H3. now rewrite !append_assoc.
Qed.

Lemma find_NoDup {A B : Type} `{EqDecision B} (h : A -> B) (l : list A)
    (x : A) :
  List.NoDup (map h l) -> In x l ->
  find (fun y => bool_decide (h y = h x)) l = Some x.
Proof.
  induction l as [|y l IH]; intros Hnd Hin; [destruct Hin|].
  simpl in *. inversion Hnd as [|? ? Hy Hnd']; subst.
  destruct Hin as [-> | Hin].
  - now rewrite bool_decide_eq_true_2.
  - rewrite bool_decide_eq_false_2; [now apply IH|].
    intros Heq. apply Hy. rewrite Heq. now apply in_map.
Qed.
End WalkMore.

(** X5: the hash of a readable file is the MD5 digest of its whole content,
    whatever its length (reading it in pieces of 4096 bytes does not show);
    hashing a file that cannot be read raises. *)
Theorem file_hash_is_digest_of_content :
  (forall data : list byte, get_file_hash (Some data) = Ok (MD5.hexdigest data))
  /\ (exists msg, get_file_hash None = Raise msg).
Proof.
  split; [exact SyncFacts.get_file_hash_content | now eexists].
Qed.

(** X6: the dictionary the walk builds has an entry for a path exactly
    when a file of the folder has that path, a supported extension (compared
    in lowercase) and readable bytes; the entry holds the digest of those
    bytes, the file name, the lowercase extension and the folder relative to
    the documents folder; so the number of tracked files never exceeds the
    number of files. *)
Theorem tracked_files_are_supported_and_readable
    (documents_folder : string) (files : list file_entry) :
  List.NoDup (map (file_path_of documents_folder) files) ->
  (forall (p : string) (i : file_info),
      Dict.get p (scan_folder documents_folder files) = Some i
      <-> exists (f : file_entry) (data : list byte),
            In f files /\ file_path_of documents_folder f = p
            /\ supported f /\ content f = Some data
            /\ i = mkInfo (MD5.hexdigest data) (fname f)
                     (PyStr.lower (splitext_ext (fname f)))
                     (relpath (dir f)))
  /\ length (scan_folder documents_folder files) <= length files.
Proof.
  intros Hnd. split.
  - intros p i. split.
    + intros H. unfold scan_folder in H.
      apply StampFacts.scan_get_file in H as [(f & Hin & Hp & He) | H];
        [|discriminate].
      unfold entry_of in He.
      destruct (bool_decide _) eqn:Hsup; [|discriminate].
      destruct (content f) as [data|] eqn:Hc; [|discriminate].
      injection He as <-. apply bool_decide_eq_true in Hsup.
      exists f, data. auto 10.
    + intros (f & data & Hin & <- & Hsup & Hc & ->).
      unfold scan_folder. rewrite (SyncFacts.scan_get _ _ _ _ Hnd Hin).
      unfold entry_of. unfold supported in Hsup.
      now rewrite (bool_decide_eq_true_2 _ Hsup), Hc.
  - assert (Hkeys : List.NoDup (Dict.keys (scan_folder documents_folder files)))
      by (apply SyncFacts.scan_keys_NoDup; constructor).
    replace (length (scan_folder documents_folder files))
      with (length (Dict.keys (scan_folder documents_folder files)))
      by apply length_map.
    replace (length files)
      with (length (map (file_path_of documents_folder) files))
      by apply length_map.
    apply NoDup_incl_length; [exact Hkeys|].
    intros p Hp.
    destruct (Dict.get p (scan_folder documents_folder files)) as [i|] eqn:Hi.
    + unfold scan_folder in Hi.
      apply StampFacts.scan_get_file in Hi as [(f & Hin & <- & _) | Hi];
        [now apply in_map | discriminate].
    + apply DictFacts.get_None_keys in Hi. contradiction.
Qed.

Lemma tracked_files_are_supported_and_readable_witness :
  let files :=
    [mkFile ["sops"] "Reset.TXT" (Some (bytes_of "abc")) 0;
     mkFile [] "image.png" (Some (bytes_of "abc")) 0;
     mkFile [] "locked.pdf" None 0] in
  List.NoDup (map (file_path_of "docs") files)
  /\ length (scan_folder "docs" files) <= 3.
Proof.
  intros files.
  assert (Hnd : List.NoDup (map (file_path_of "docs") files)).
  { repeat constructor; simpl; intuition discriminate. }
  split; [exact Hnd|].
  exact (proj2 (tracked_files_are_supported_and_readable "docs" files Hnd)).
Defined.

(** X7: the sync's extension filter and the extractor's dispatch agree: for
    a file with a supported extension, the file type the extractor reads off
    the path (the lowercased text after the last dot) is that extension
    without its dot, so it is one of the five parsed types and the file is
    never treated as unsupported. *)
Theorem tracked_file_type_is_dispatched
    (documents_folder : string) (f : file_entry) :
  supported f ->
  let file_type :=
    PyStr.lower
      (List.last (split_on "." "" (file_path_of documents_folder f)) "") in
  String "." file_type = PyStr.lower (splitext_ext (fname f))
  /\ In file_type ["pdf"; "docx"; "csv"; "xlsx"; "txt"].
Proof.
  intros Hsup file_type. unfold supported in Hsup.
  assert (Hne : splitext_ext (fname f) <> "").
  { intros He. rewrite He in Hsup. apply list_elem_of_In in Hsup.
    simpl in Hsup. intuition discriminate. }
  destruct (WalkMore.splitext_ext_suffix _ Hne) as (pre & t & Hname & Hext & Ht).
  assert (Htype : file_type = PyStr.lower t).
  { unfold file_type, file_path_of, path_join. rewrite Hname.
    rewrite <- !PyStrFacts.append_assoc.
    now rewrite WalkMore.last_split_on. }
  rewrite Hext in *. rewrite Htype. simpl PyStr.lower in *.
  change (PyStr.lower_char ".") with "."%char in *.
  split; [reflexivity|].
  apply list_elem_of_In in Hsup. simpl in Hsup.
  destruct Hsup as [H|[H|[H|[H|[H|[]]]]]]; injection H as ->; simpl; auto 10.
Qed.

Lemma tracked_file_type_is_dispatched_witness :
  supported (mkFile ["sops"; "v2.1"] "Reset.Plan.TXT" None 0)
  /\ In (PyStr.lower
           (List.last
              (split_on "." ""
                 (file_path_of "docs"
                    (mkFile ["sops"; "v2.1"] "Reset.Plan.TXT" None 0))) ""))
        ["pdf"; "docx"; "csv"; "xlsx"; "txt"].
Proof.
  assert (H : supported (mkFile ["sops"; "v2.1"] "Reset.Plan.TXT" None 0)).
  { unfold supported. vm_compute. repeat constructor. }
  split; [exact H|].
  exact (proj2 (tracked_file_type_is_dispatched "docs" _ H)).
Defined.

(** ** The sync, the ledger and the index *)

Module SyncMore.
Import DictFacts SyncFacts.

Section Loop.
Variable extract : string -> option (list byte) -> result string.
Variable df : string.
Variable files : list file_entry.
Variable cur : Dict.t file_info.

(** Every selected path adds at most one document. *)
Lemma process_length (sel : list string) (acc : list Doc) :
  length (fold_left (process_file extract df files cur) sel acc)
  <= length acc + length sel.
Proof.
  revert acc. induction sel as [|p sel IH]; intros acc; simpl; [lia|].
  etransitivity; [apply IH|]. unfold process_file.
  destruct (extract p _) as [text|]; [|lia].
  destruct (PyStr.strip_nonempty text); [|lia].
  destruct (Dict.get p cur); [|lia].
  rewrite length_app. simpl. lia.
Qed.

(** The documents of the loop are those of the selected paths whose text
    was extracted and is not blank. *)
Lemma process_In (sel : list string) (acc : list Doc) (d : Doc) :
  In d (fold_left (process_file extract df files cur) sel acc)
  <-> In d acc
      \/ exists p text i,
           In p sel /\ extract p (read_file df files p) = Ok text
           /\ PyStr.strip_nonempty text = true /\ Dict.get p cur = Some i
           /\ d = sync_document p text i.
Proof.
  revert acc. induction sel as [|p sel IH]; intros acc; simpl.
  - split; [auto | intros [H | (p & text & i & [] & _)]; exact H].
  - rewrite IH. split.
    + intros [H | (q & text & i & Hq & Hrest)].
      * unfold process_file in H.
        destruct (extract p _) as [text|] eqn:He; [|auto].
        destruct (PyStr.strip_nonempty text) eqn:Hs; [|auto].
        destruct (Dict.get p cur) as [i|] eqn:Hi; [|auto].
        apply in_app_iff in H as [H | [<- | []]]; [auto|].
        right. exists p, text, i. auto 10.
      * right. exists q, text, i. auto.
    + intros [H | (q & text & i & [<- | Hq] & He & Hs & Hi & ->)].
      * left. unfold process_file.
        destruct (extract p _) as [text|]; [|exact H].
        destruct (PyStr.strip_nonempty text); [|exact H].
        destruct (Dict.get p cur); [|exact H].
        apply in_app_iff. now left.
      * left. unfold process_file. rewrite He, Hs, Hi.
        apply in_app_iff. right. now left.
      * right. exists q, text, i. auto 10.
Qed.
End Loop.

Lemma selection_length (cur ledger : Dict.t file_info) :
  length (new_or_changed_files cur ledger) <= length cur.
Proof.
  rewrite selection_filter, length_map. apply List.filter_length_le.
Qed.

Lemma selection_from_empty_ledger (cur : Dict.t file_info) :
  new_or_changed_files cur [] = Dict.keys cur.
Proof.
  rewrite selection_filter. unfold Dict.keys. f_equal.
  induction cur as [|kv cur IH]; simpl; [reflexivity | now rewrite IH].
Qed.

(** The parts of a sync's outcome, by name. *)
Lemma sync_parts (extract : string -> option (list byte) -> result string)
    (split_text : splitter -> string -> list string) (df : string)
    (files : list file_entry) (st : store) :
  let out := sync_folder extract split_text df files st in
  let cur := scan_folder df files in
  let sel := new_or_changed_files cur (load_processed_files_info st) in
  let docs := fold_left (process_file extract df files cur) sel [] in
  returned_documents out = docs
  /\ selected_files out = sel
  /\ info out
     = Some (mkProcessing (length cur) (length docs)
               (length cur - length docs))
  /\ final_vectorstore out
     = match docs with
       | [] => load_vectorstore st
       | _ :: _ =>
           Some (index_chunks (load_vectorstore st)
                 ++ create_optimized_chunks_for_large_docs split_text docs)
       end
  /\ store_after out
     = match docs with
       | [] => st
       | _ :: _ =>
           mkStore
             (Some (Dict.update (load_processed_files_info st) cur))
             (Some (index_chunks (load_vectorstore st)
                    ++ create_optimized_chunks_for_large_docs split_text docs))
       end.
Proof.
  intros out cur sel docs. unfold out, sync_folder.
  fold cur. fold sel. fold docs.
  destruct docs as [|d ds]; [repeat split|].
  unfold index_chunks. destruct (load_vectorstore st); repeat split.
Qed.
End SyncMore.

(** X8: the counts a sync reports add up: [new_documents] is the number of
    documents returned, it is at most the number of selected files, which is
    at most [total_documents], the number of tracked files; and
    [new_documents + reused_documents = total_documents]. *)
Theorem sync_counts_add_up
    (extract : string -> option (list byte) -> result string)
    (split_text : splitter -> string -> list string)
    (documents_folder : string) (files : list file_entry) (st : store) :
  let out := sync_folder extract split_text documents_folder files st in
  exists report : processing_info,
    info out = Some report
    /\ total_documents report
       = length (scan_folder documents_folder files)
    /\ new_documents report = length (returned_documents out)
    /\ new_documents report <= length (selected_files out)
    /\ length (selected_files out) <= total_documents report
    /\ new_documents report + reused_documents report
       = total_documents report.
Proof.
  intros out.
  destruct (SyncMore.sync_parts extract split_text documents_folder files st)
    as (Hdocs & Hsel & Hinfo & _ & _).
  fold out in Hdocs, Hsel, Hinfo.
  eexists. split; [exact Hinfo|]. cbn [total_documents new_documents
                                        reused_documents].
  rewrite Hdocs, Hsel.
  pose proof (SyncMore.process_length extract documents_folder files
                (scan_folder documents_folder files)
                (new_or_changed_files (scan_folder documents_folder files)
                   (load_processed_files_info st)) []) as H1.
  pose proof (SyncMore.selection_length (scan_folder documents_folder files)
                (load_processed_files_info st)) as H2.
  simpl in H1. repeat split; lia.
Qed.

(** X9: a sync never removes anything: every path the ledger had is still
    in the ledger afterwards, the entry of a path that the walk did not
    track (a deleted file, say) is kept as it was, and the index afterwards
    is the index before followed by the chunks added. *)
Theorem sync_only_adds
    (extract : string -> option (list byte) -> result string)
    (split_text : splitter -> string -> list string)
    (documents_folder : string) (files : list file_entry) (st : store) :
  let out := sync_folder extract split_text documents_folder files st in
  let before := load_processed_files_info st in
  let after := load_processed_files_info (store_after out) in
  (forall p i, Dict.get p before = Some i -> exists i', Dict.get p after = Some i')
  /\ (forall p,
        Dict.get p (scan_folder documents_folder files) = None ->
        Dict.get p after = Dict.get p before)
  /\ exists added,
       index_chunks (load_vectorstore (store_after out))
       = index_chunks (load_vectorstore st) ++ added.
Proof.
  intros out before after.
  destruct (SyncMore.sync_parts extract split_text documents_folder files st)
    as (_ & _ & _ & _ & Hstore).
  fold out in Hstore. unfold after, before.
  assert (Hnd : List.NoDup (Dict.keys (scan_folder documents_folder files)))
    by (apply SyncFacts.scan_keys_NoDup; constructor).
  rewrite Hstore.
  destruct (fold_left _ _ []) as [|d ds].
  - split; [eauto|]. split; [reflexivity|]. exists []. now rewrite app_nil_r.
  - cbn [load_processed_files_info ledger_file load_vectorstore
         vectorstore_dir index_chunks].
    split; [|split].
    + intros p i Hp. rewrite (DictFacts.get_update _ _ _ Hnd).
      destruct (Dict.get p (scan_folder documents_folder files)); eauto.
    + intros p Hp. now rewrite (DictFacts.get_update _ _ _ Hnd), Hp.
    + now eexists.
Qed.

(** X10: one file that fails does not affect the others: the documents a
    sync returns are exactly those of the selected paths whose extraction
    returned a text that is not blank, each with the extracted text and the
    name, path, extension and folder of its file. *)
Theorem sync_documents_are_the_extracted_files
    (extract : string -> option (list byte) -> result string)
    (split_text : splitter -> string -> list string)
    (documents_folder : string) (files : list file_entry) (st : store)
    (d : Doc) :
  let out := sync_folder extract split_text documents_folder files st in
  In d (returned_documents out)
  <-> exists (p text : string) (i : file_info),
        In p (selected_files out)
        /\ extract p (read_file documents_folder files p) = Ok text
        /\ PyStr.strip_nonempty text = true
        /\ Dict.get p (scan_folder documents_folder files) = Some i
        /\ d = sync_document p text i.
Proof.
  intros out.
  destruct (SyncMore.sync_parts extract split_text documents_folder files st)
    as (Hdocs & Hsel & _).
  fold out in Hdocs, Hsel. rewrite Hdocs, Hsel, SyncMore.process_In.
  split; [intros [[] | H]; exact H | auto].
Qed.

(** X11: clearing resets both persisted artefacts and reports whether there
    was anything to clear; the sync that follows selects every tracked file
    and returns the documents, the index and the counts of a sync that starts
    from nothing. *)
Theorem clear_then_sync_rebuilds
    (extract : string -> option (list byte) -> result string)
    (split_text : splitter -> string -> list string)
    (documents_folder : string) (files : list file_entry) (st : store) :
  let cleared := clear_vectorstore_and_cache st in
  let rebuilt :=
    sync_folder extract split_text documents_folder files (snd cleared) in
  let fresh :=
    sync_folder extract split_text documents_folder files empty_store in
  load_processed_files_info (snd cleared) = []
  /\ load_vectorstore (snd cleared) = None
  /\ (fst cleared = false <-> st = empty_store)
  /\ selected_files rebuilt
     = Dict.keys (scan_folder documents_folder files)
  /\ returned_documents rebuilt = returned_documents fresh
  /\ final_vectorstore rebuilt = final_vectorstore fresh
  /\ info rebuilt = info fresh.
Proof.
  intros cleared rebuilt fresh.
  assert (Hl : load_processed_files_info (snd cleared) = []).
  { unfold cleared, clear_vectorstore_and_cache, load_processed_files_info.
    simpl. now destruct (ledger_file st). }
  assert (Hv : load_vectorstore (snd cleared) = None) by reflexivity.
  split; [exact Hl|]. split; [exact Hv|]. split.
  { unfold cleared, clear_vectorstore_and_cache, empty_store. simpl.
    destruct st as [[l|] [v|]]; simpl; split; intros H;
      try discriminate; reflexivity. }
  destruct (SyncMore.sync_parts extract split_text documents_folder files
              (snd cleared)) as (Hd1 & Hs1 & Hi1 & Hf1 & _).
  destruct (SyncMore.sync_parts extract split_text documents_folder files
              empty_store) as (Hd2 & Hs2 & Hi2 & Hf2 & _).
  fold rebuilt in Hd1, Hs1, Hi1, Hf1. fold fresh in Hd2, Hs2, Hi2, Hf2.
  rewrite Hl, ?Hv in *.
  change (load_processed_files_info empty_store) with (@nil (string * file_info))
    in *.
  change (load_vectorstore empty_store) with (@None (list Doc)) in *.
  rewrite Hs1, Hd1, Hd2, Hf1, Hf2, Hi1, Hi2.
  split; [apply SyncMore.selection_from_empty_ledger|].
  repeat split.
Qed.

(** ** The upload intake *)

Module UploadMore.
Import DictFacts SyncFacts.

Lemma write_file_new (now : Z) (file : string) (data : list byte)
    (files : list file_entry) :
  In (mkFile [] file (Some data) now) (write_file now file data files).
Proof.
  induction files as [|f files IH]; simpl; [now left|].
  destruct (bool_decide _); [now left | now right].
Qed.

Lemma write_file_keeps (now : Z) (file : string) (data : list byte)
    (files : list file_entry) (f : file_entry) :
  In f files -> ~ (dir f = [] /\ fname f = file) ->
  In f (write_file now file data files).
Proof.
  intros Hin Hf. induction files as [|g files IH]; [destruct Hin|].
  simpl. destruct Hin as [-> | Hin].
  - rewrite bool_decide_eq_false_2 by exact Hf. now left.
  - destruct (bool_decide _); right; auto.
    (* the entry replaced is [g], and [f] is further down *)
Qed.

Lemma write_all_keeps (now : Z) (uploads : list uploaded_file)
    (files : list file_entry) (f : file_entry) :
  In f files -> (forall u, In u uploads -> ~ overwritten_by f u) ->
  In f (write_all now uploads files).
Proof.
  unfold write_all. revert files.
  induction uploads as [|u uploads IH]; intros files Hin Hf; simpl; [exact Hin|].
  apply IH; [|intros u' Hu'; apply Hf; now right].
  apply write_file_keeps; [exact Hin|]. apply (Hf u). now left.
Qed.

Lemma write_all_new (now : Z) (uploads : list uploaded_file)
    (files : list file_entry) (u : uploaded_file) :
  List.NoDup (map up_name uploads) -> In u uploads ->
  In (mkFile [] (up_name u) (Some (up_buffer u)) now)
     (write_all now uploads files).
Proof.
  unfold write_all. revert files.
  induction uploads as [|u0 uploads IH]; intros files Hnd Hin; [destruct Hin|].
  simpl in *. inversion Hnd as [|? ? Hu0 Hnd']; subst.
  destruct Hin as [-> | Hin]; [|now apply IH].
  apply (write_all_keeps now uploads); [apply write_file_new|].
  intros u' Hu' [_ Hname]. simpl in Hname. apply Hu0. rewrite Hname.
  now apply in_map.
Qed.

(** The three parts of the state after the loop over the batch. *)
Lemma upload_loop (extract : string -> option (list byte) -> result string)
    (df : string) (now : Z) (uploads : list uploaded_file)
    (files : list file_entry) (saved_files : list string) (docs : list Doc) :
  exists docs',
    fold_left (upload_one extract df now) uploads (files, saved_files, docs)
    = (write_all now uploads files,
       saved_files ++ map (fun u => path_join df (up_name u)) uploads,
       docs')
    /\ length docs' <= length docs + length uploads.
Proof.
  unfold write_all. revert files saved_files docs.
  induction uploads as [|u uploads IH]; intros files saved_files docs.
  - exists docs. simpl. rewrite app_nil_r. split; [reflexivity | lia].
  - cbn [fold_left map]. unfold upload_one at 2.
    destruct (extract _ _) as [text|].
    + destruct (PyStr.strip_nonempty text).
      * destruct (IH (write_file now (up_name u) (up_buffer u) files)
                     (saved_files ++ [path_join df (up_name u)])
                     (docs ++ [mkDoc text
                        [("source", MStr (up_name u));
                         ("file_path", MStr (path_join df (up_name u)));
                         ("file_type",
                          MStr (PyStr.lower (splitext_ext (up_name u))));
                         ("folder", MStr "")]]))
          as (docs' & Heq & Hlen).
        exists docs'. rewrite Heq, <- app_assoc. split; [reflexivity|].
        rewrite length_app in Hlen. simpl in *. lia.
      * destruct (IH (write_file now (up_name u) (up_buffer u) files)
                     (saved_files ++ [path_join df (up_name u)]) docs)
          as (docs' & Heq & Hlen).
        exists docs'. rewrite Heq, <- app_assoc. split; [reflexivity|].
        simpl. lia.
    + destruct (IH (write_file now (up_name u) (up_buffer u) files)
                   (saved_files ++ [path_join df (up_name u)]) docs)
        as (docs' & Heq & Hlen).
      exists docs'. rewrite Heq, <- app_assoc. split; [reflexivity|].
      simpl. lia.
Qed.

(** Recording the saved files keeps a recorded digest of a path current. *)
Lemma record_saved_keeps (df : string) (files : list file_entry)
    (saved_files : list string) (l l' : Dict.t file_info) (p : string)
    (data : list byte) (i : file_info) :
  record_saved df files saved_files l = Ok l' ->
  read_file df files p = Some data ->
  Dict.get p l = Some i -> hash i = MD5.hexdigest data ->
  exists i', Dict.get p l' = Some i' /\ hash i' = MD5.hexdigest data.
Proof.
  revert l i. induction saved_files as [|q saved_files IH]; intros l i; simpl.
  - intros H. injection H as <-. eauto.
  - destruct (get_file_hash (read_file df files q)) as [h|] eqn:Hq;
      [|discriminate].
    intros Hrec Hread Hget Hhash.
    destruct (decide (q = p)) as [->|Hne].
    + rewrite Hread, get_file_hash_content in Hq. injection Hq as <-.
      eapply IH; [exact Hrec | exact Hread | apply get_set_eq | reflexivity].
    + eapply IH; [exact Hrec | exact Hread | | exact Hhash].
      rewrite get_set_ne by exact Hne. exact Hget.
Qed.

Lemma record_saved_records (df : string) (files : list file_entry)
    (saved_files : list string) (l l' : Dict.t file_info) (p : string) :
  record_saved df files saved_files l = Ok l' ->
  In p saved_files ->
  exists data i',
    read_file df files p = Some data
    /\ Dict.get p l' = Some i' /\ hash i' = MD5.hexdigest data.
Proof.
  revert l. induction saved_files as [|q saved_files IH]; intros l Hrec Hin;
    [destruct Hin|].
  simpl in Hrec.
  destruct (get_file_hash (read_file df files q)) as [h|] eqn:Hq;
    [|discriminate].
  destruct Hin as [-> | Hin]; [|now apply (IH _ Hrec)].
  destruct (read_file df files p) as [data|] eqn:Hread; [|discriminate].
  rewrite get_file_hash_content in Hq. injection Hq as <-.
  exists data.
  destruct (record_saved_keeps df files saved_files _ l' p data _ Hrec Hread
              (get_set_eq _ _ _) eq_refl) as (i' & Hi' & Hh).
  now exists i'.
Qed.
End UploadMore.





(** ** The chunking engine: texts and numbering *)

Module EngineMore.
Import DictFacts.

Lemma map_flat_map {A B C : Type} (f : B -> C) (g : A -> list B) (l : list A) :
  map f (flat_map g l) = flat_map (fun x => map f (g x)) l.
Proof.
  induction l as [|x l IH]; simpl; [reflexivity|].
  now rewrite map_app, IH.
Qed.

Lemma enumerate_snd {A : Type} (l : list A) (s : nat) :
  map snd (combine (seq s (length l)) l) = l.
Proof.
  revert s. induction l as [|x l IH]; intros s; simpl; [reflexivity|].
  now rewrite IH.
Qed.

Lemma enumerate_fst {A : Type} (l : list A) (s : nat) :
  map fst (combine (seq s (length l)) l) = seq s (length l).
Proof.
  revert s. induction l as [|x l IH]; intros s; simpl; [reflexivity|].
  now rewrite IH.
Qed.

Lemma map_constant {A B : Type} (g : A -> B) (v : B) (l : list A) :
  (forall x, In x l -> g x = v) -> map g l = repeat v (length l).
Proof.
  induction l as [|x l IH]; intros H; simpl; [reflexivity|].
  rewrite (H x) by now left. f_equal. apply IH. intros y Hy. apply H. now right.
Qed.

Section Tier.
Variable split_text : splitter -> string -> list string.

(** Stamping leaves the pieces as they are, in their order. *)
Lemma tier_texts (doc : Doc) (chunk_type category : string) (sp : splitter) :
  map page_content (tier_chunks split_text doc chunk_type category sp)
  = split_text sp (page_content doc).
Proof.
  unfold tier_chunks, enumerate. rewrite map_map. simpl.
  apply enumerate_snd.
Qed.

(** The chunks of one chunking are numbered from zero, in order. *)
Lemma tier_indices (doc : Doc) (chunk_type category : string) (sp : splitter) :
  map (fun c => Dict.get "chunk_index" (metadata c))
      (tier_chunks split_text doc chunk_type category sp)
  = map (fun j => Some (MInt j))
        (seq 0 (length (split_text sp (page_content doc)))).
Proof.
  unfold tier_chunks, enumerate.
  transitivity
    (map (fun j => Some (MInt j))
       (map fst
          (combine (seq 0 (length (split_text sp (page_content doc))))
             (split_text sp (page_content doc)))));
    [|now rewrite enumerate_fst].
  rewrite !map_map. apply map_ext. intros [j piece]. cbn [metadata fst snd].
  rewrite get_update by apply StampFacts.stamps_NoDup. reflexivity.
Qed.

Lemma tier_totals (doc : Doc) (chunk_type category : string) (sp : splitter)
    (c : Doc) :
  In c (tier_chunks split_text doc chunk_type category sp) ->
  Dict.get "total_chunks" (metadata c)
  = Some (MInt (length (split_text sp (page_content doc)))).
Proof.
  intros Hin. apply StampFacts.tier_chunks_In in Hin as (j & _ & ->).
  rewrite get_update by apply StampFacts.stamps_NoDup. reflexivity.
Qed.

(** The chunks of a document, by the splitters used for it. *)
Lemma chunks_of_splitters (doc : Doc) :
  exists names,
    length names = length (splitters_for split_text doc)
    /\ chunks_of split_text doc
       = flat_map
           (fun nsp => tier_chunks split_text doc (fst nsp)
                         (size_category doc) (snd nsp))
           (combine names (splitters_for split_text doc)).
Proof.
  unfold splitters_for, size_category.
  destruct (50000 <? Z.of_nat (String.length (page_content doc)))%Z eqn:H1;
    [|destruct (5000 <? Z.of_nat (String.length (page_content doc)))%Z eqn:H2].
  - exists ["broad"; "detailed"; "specific"]. split; [reflexivity|].
    rewrite ChunkFacts.chunks_of_large by now apply Z.ltb_lt.
    simpl. now rewrite app_nil_r.
  - exists ["standard"; "detailed"]. split; [reflexivity|].
    rewrite ChunkFacts.chunks_of_medium
      by (split; [now apply Z.ltb_lt | now apply Z.ltb_ge]).
    simpl. now rewrite app_nil_r.
  - exists ["standard"].
    rewrite ChunkFacts.chunks_of_small by now apply Z.ltb_ge.
    destruct (_ && _); split; try reflexivity; simpl; now rewrite app_nil_r.
Qed.
End Tier.
End EngineMore.

(** X14: stamping never changes, drops or reorders text: the texts of the
    chunks the engine returns are, document after document and chunking
    after chunking, exactly the pieces the splitter cuts; so the number of
    chunks is the total number of pieces, and a document the splitter cuts
    into no piece adds no chunk. *)
Theorem engine_texts_are_the_pieces
    (split_text : splitter -> string -> list string) (documents : list Doc) :
  map page_content
      (create_optimized_chunks_for_large_docs split_text documents)
  = flat_map
      (fun doc =>
         flat_map (fun sp => split_text sp (page_content doc))
                  (splitters_for split_text doc))
      documents.
Proof.
  rewrite ChunkFacts.engine_flat_map, EngineMore.map_flat_map.
  induction documents as [|doc documents IH]; simpl; [reflexivity|].
  rewrite IH. f_equal.
  destruct (EngineMore.chunks_of_splitters split_text doc)
    as (names & Hlen & ->).
  rewrite EngineMore.map_flat_map.
  revert names Hlen.
  induction (splitters_for split_text doc) as [|sp sps IHs];
    intros [|n names] Hlen; try discriminate; simpl; [reflexivity|].
  rewrite EngineMore.tier_texts. f_equal. apply IHs.
  simpl in Hlen. lia.
Qed.

(** X15: within every chunking of a document the chunks are numbered
    0, 1, 2, ... in the order of the pieces, and each carries the number of
    pieces of its chunking as [total_chunks]. *)
Theorem engine_numbers_each_chunking
    (split_text : splitter -> string -> list string) (doc : Doc) :
  map (fun c => Dict.get "chunk_index" (metadata c))
      (create_optimized_chunks_for_large_docs split_text [doc])
  = flat_map
      (fun sp =>
         map (fun j => Some (MInt j))
             (seq 0 (length (split_text sp (page_content doc)))))
      (splitters_for split_text doc)
  /\ map (fun c => Dict.get "total_chunks" (metadata c))
         (create_optimized_chunks_for_large_docs split_text [doc])
     = flat_map
         (fun sp =>
            repeat (Some (MInt (length (split_text sp (page_content doc)))))
                   (length (split_text sp (page_content doc))))
         (splitters_for split_text doc).
Proof.
  rewrite ChunkFacts.engine_flat_map. simpl. rewrite app_nil_r.
  destruct (EngineMore.chunks_of_splitters split_text doc)
    as (names & Hlen & ->).
  rewrite !EngineMore.map_flat_map.
  revert names Hlen.
  induction (splitters_for split_text doc) as [|sp sps IHs];
    intros [|n names] Hlen; try discriminate; simpl; [split; reflexivity|].
  destruct (IHs names) as [IH1 IH2]; [simpl in Hlen; lia|].
  rewrite IH1, IH2, EngineMore.tier_indices. split; [reflexivity|].
  f_equal.
  rewrite (EngineMore.map_constant _
             (Some (MInt (length (split_text sp (page_content doc))))))
    by (intros c; apply EngineMore.tier_totals).
  f_equal.
  rewrite <- (length_map page_content
                (tier_chunks split_text doc n (size_category doc) sp)).
  now rewrite EngineMore.tier_texts.
Qed.

(** ** The debug log and the coverage analysis *)

Module DebugMore.
Import DictFacts.

Lemma append_length (a b : string) :
  String.length (a +:+ b) = String.length a + String.length b.
Proof. induction a as [|c a IH]; simpl; [reflexivity | now rewrite IH]. Qed.

Lemma str_take_length (n : nat) (s : string) :
  String.length (str_take n s) = Nat.min n (String.length s).
Proof.
  revert s. induction n as [|n IH]; intros [|c s]; simpl; try reflexivity.
  now rewrite IH.
Qed.

Lemma str_drop_length (n : nat) (s : string) :
  String.length (str_drop n s) = String.length s - n.
Proof.
  revert s. induction n as [|n IH]; intros [|c s]; simpl; try reflexivity.
  apply IH.
Qed.

Lemma str_take_drop (n : nat) (s : string) : str_take n s +:+ str_drop n s = s.
Proof.
  revert s. induction n as [|n IH]; intros [|c s]; simpl; try reflexivity.
  now rewrite IH.
Qed.

(** The preview: the whole text up to 400 characters, and otherwise its
    first and last 200 characters around three dots. *)
Lemma preview_spec (content : string) :
  String.length (Debug.preview content) <= 403
  /\ (String.length content <= 400 -> Debug.preview content = content)
  /\ (400 < String.length content ->
      Debug.preview content
      = str_take 200 content +:+ "..." +:+ str_last 200 content
      /\ String.length (Debug.preview content) = 403).
Proof.
  unfold Debug.preview.
  destruct (400 <? String.length content) eqn:H.
  - apply Nat.ltb_lt in H.
    assert (Hlen : String.length
                     (str_take 200 content +:+ "..." +:+ str_last 200 content)
                   = 403).
    { unfold str_last.
      rewrite !append_length, str_take_length, str_drop_length.
      change (String.length "...") with 3. lia. }
    rewrite Hlen. split; [lia|]. split; [lia | auto].
  - apply Nat.ltb_ge in H. split; [lia|]. split; [reflexivity | lia].
Qed.

Lemma map_numbered {A B : Type} (g : A -> B) (l : list A) (s : nat) :
  map (fun ic => g (snd ic)) (combine (seq s (length l)) l) = map g l.
Proof.
  revert s. induction l as [|x l IH]; intros s; simpl; [reflexivity|].
  now rewrite IH.
Qed.

Lemma details_map (query : string) (chunks : list Doc)
    (enhanced : option string) (log_to_file : bool) :
  fst (Debug.log_retrieved_chunks_for_debugging query chunks enhanced
         log_to_file)
  = map (fun ic => Debug.describe (fst ic) (snd ic))
        (combine (seq 1 (length chunks)) chunks).
Proof.
  unfold Debug.log_retrieved_chunks_for_debugging. cbn [fst].
  now rewrite (fold_left_snoc (fun ic => Debug.describe (fst ic) (snd ic))).
Qed.

(** *** Counters *)

Lemma count_up_same (k : meta_value) (d : Coverage.counters) :
  Coverage.count_of k (Coverage.count_up k d) = Coverage.count_of k d + 1.
Proof.
  induction d as [|[k' n] d IH]; simpl.
  - now destruct (decide (k = k)).
  - destruct (decide (k = k')) as [->|Hne]; simpl.
    + now destruct (decide (k' = k')).
    + now destruct (decide (k = k')).
Qed.

Lemma count_up_other (k k' : meta_value) (d : Coverage.counters) :
  k <> k' ->
  Coverage.count_of k' (Coverage.count_up k d) = Coverage.count_of k' d.
Proof.
  intros Hne. induction d as [|[k0 n] d IH]; simpl.
  - destruct (decide (k' = k)); [congruence | reflexivity].
  - destruct (decide (k = k0)) as [->|Hk]; simpl.
    + destruct (decide (k' = k0)); [congruence | reflexivity].
    + destruct (decide (k' = k0)); [reflexivity | exact IH].
Qed.

Lemma count_up_sum (k : meta_value) (d : Coverage.counters) :
  list_sum (map snd (Coverage.count_up k d)) = list_sum (map snd d) + 1.
Proof.
  induction d as [|[k' n] d IH]; simpl; [reflexivity|].
  destruct (decide (k = k')); simpl; lia.
Qed.

Lemma count_up_keys (P : meta_value -> bool) (k : meta_value)
    (d : Coverage.counters) :
  forallb (fun kv => P (fst kv)) (Coverage.count_up k d)
  = P k && forallb (fun kv => P (fst kv)) d.
Proof.
  induction d as [|[k' n] d IH]; simpl; [reflexivity|].
  destruct (decide (k = k')) as [->|Hne]; simpl.
  - now destruct (P k'), (forallb _ d).
  - rewrite IH. now destruct (P k), (P k'), (forallb _ d).
Qed.

(** The counters after a loop that counts one value per chunk. *)
Lemma counted (value : Doc -> meta_value) (chunks : list Doc)
    (d : Coverage.counters) :
  let d' := fold_left (fun acc c => Coverage.count_up (value c) acc) chunks d in
  (forall k,
      Coverage.count_of k d'
      = Coverage.count_of k d
        + length (List.filter (fun c => bool_decide (value c = k)) chunks))
  /\ list_sum (map snd d') = list_sum (map snd d) + length chunks
  /\ forall P,
       forallb (fun kv => P (fst kv)) d'
       = forallb P (map value chunks) && forallb (fun kv => P (fst kv)) d.
Proof.
  revert d. induction chunks as [|c chunks IH]; intros d; simpl.
  - split; [intros k; lia|]. split; [lia | reflexivity].
  - destruct (IH (Coverage.count_up (value c) d)) as (H1 & H2 & H3).
    split; [|split].
    + intros k. rewrite H1.
      destruct (decide (value c = k)) as [<-|Hne].
      * rewrite bool_decide_eq_true_2 by reflexivity.
        rewrite count_up_same. simpl. lia.
      * rewrite bool_decide_eq_false_2 by exact Hne.
        now rewrite count_up_other.
    + rewrite H2, count_up_sum. lia.
    + intros P. rewrite H3, count_up_keys.
      now destruct (P (value c)), (forallb P _), (forallb _ d).
Qed.

Lemma tally_components (chunks : list Doc) (s t : Coverage.counters) :
  fold_left Coverage.tally chunks (s, t)
  = (fold_left (fun acc c => Coverage.count_up (source_of c) acc) chunks s,
     fold_left (fun acc c => Coverage.count_up (chunk_type_of c) acc) chunks t).
Proof.
  revert s t. induction chunks as [|c chunks IH]; intros s t; simpl;
    [reflexivity|].
  apply IH.
Qed.

Lemma total_is_sum (chunks : list Doc) (n : nat) :
  fold_left (fun total c => total + String.length (page_content c)) chunks n
  = n + list_sum (map (fun c => String.length (page_content c)) chunks).
Proof.
  revert n. induction chunks as [|c chunks IH]; intros n; simpl; [lia|].
  rewrite IH. lia.
Qed.

Lemma sortable_uniform (value : Doc -> meta_value) (chunks : list Doc) :
  Coverage.sortable
    (fold_left (fun acc c => Coverage.count_up (value c) acc) chunks [])
  = uniform (map value chunks).
Proof.
  unfold Coverage.sortable, uniform.
  destruct (counted value chunks []) as (_ & _ & H).
  rewrite !H. simpl. now rewrite !andb_true_r.
Qed.

(** What the analysis returns, when it returns. *)
Lemma analysis_result (chunks : list Doc) :
  Coverage.analyze_chunk_coverage chunks
  = if uniform (map source_of chunks) && uniform (map chunk_type_of chunks)
    then
      Ok (Coverage.mkCoverage
            (fold_left (fun acc c => Coverage.count_up (source_of c) acc)
                       chunks [])
            (fold_left (fun acc c => Coverage.count_up (chunk_type_of c) acc)
                       chunks [])
            (list_sum (map (fun c => String.length (page_content c)) chunks))
            match chunks with
            | [] => 0%Q
            | _ :: _ =>
                (Z.of_nat
                   (list_sum
                      (map (fun c => String.length (page_content c)) chunks))
                 # Pos.of_nat (length chunks))%Q
            end)
    else Raise "TypeError".
Proof.
  unfold Coverage.analyze_chunk_coverage.
  rewrite tally_components, !sortable_uniform, total_is_sum.
  destruct (uniform (map source_of chunks)); [|reflexivity].
  destruct (uniform (map chunk_type_of chunks)); reflexivity.
Qed.
End DebugMore.

(** X16: the debug details describe every retrieved chunk once, in order:
    they are numbered from 1, keep the full text and its length, and give a
    preview of at most 403 characters, which is the whole text up to 400
    characters and otherwise its first 200 and last 200 characters around
    three dots; the log written to file, when asked for, holds the same
    details and their number. *)
Theorem debug_details_describe_each_chunk (query : string)
    (retrieved_chunks : list Doc) (enhanced : option string)
    (log_to_file : bool) :
  let result :=
    Debug.log_retrieved_chunks_for_debugging query retrieved_chunks enhanced
      log_to_file in
  map Debug.chunk_number (fst result) = seq 1 (length retrieved_chunks)
  /\ map Debug.full_content (fst result) = map page_content retrieved_chunks
  /\ map Debug.size (fst result)
     = map (fun c => String.length (page_content c)) retrieved_chunks
  /\ (forall d, In d (fst result) ->
        String.length (Debug.content_preview d) <= 403
        /\ (Debug.size d <= 400 ->
            Debug.content_preview d = Debug.full_content d)
        /\ (400 < Debug.size d ->
            Debug.content_preview d
            = str_take 200 (Debug.full_content d) +:+ "..."
              +:+ str_last 200 (Debug.full_content d)))
  /\ snd result
     = if log_to_file
       then Some (Debug.mkLog query enhanced (length retrieved_chunks)
                    (fst result))
       else None.
Proof.
  intros result. unfold result. rewrite DebugMore.details_map.
  split; [|split; [|split; [|split]]].
  - rewrite List.map_map. cbn [Debug.describe Debug.chunk_number].
    apply EngineMore.enumerate_fst.
  - rewrite List.map_map. cbn [Debug.describe Debug.full_content].
    apply (DebugMore.map_numbered page_content).
  - rewrite List.map_map. cbn [Debug.describe Debug.size].
    apply (DebugMore.map_numbered
             (fun c => String.length (page_content c))).
  - intros d Hd. apply in_map_iff in Hd as [[i c] [<- _]]. simpl.
    destruct (DebugMore.preview_spec (page_content c)) as (H1 & H2 & H3).
    split; [exact H1|]. split; [exact H2|]. intros H. now apply H3.
  - unfold Debug.log_retrieved_chunks_for_debugging. cbn [fst snd].
    now rewrite (DictFacts.fold_left_snoc
                   (fun ic => Debug.describe (fst ic) (snd ic))).
Qed.



(** ** Chunks of synced documents in the debug log and the analysis *)

Module TraceMore.
Import DictFacts.

(** What a chunk cut from a synced document says about itself. *)
Lemma synced_chunk_fields
    (extract : string -> option (list byte) -> result string)
    (split_text : splitter -> string -> list string)
    (df : string) (files : list file_entry) (st : store) (chunk : Doc) :
  In chunk
     (create_optimized_chunks_for_large_docs split_text
        (returned_documents (sync_folder extract split_text df files st))) ->
  exists (f : file_entry) (chunk_type : string) (j : nat),
    In f files
    /\ In chunk_type ["broad"; "detailed"; "specific"; "standard"]
    /\ Dict.get "source" (metadata chunk) = Some (MStr (fname f))
    /\ Dict.get "file_path" (metadata chunk)
       = Some (MStr (file_path_of df f))
    /\ Dict.get "chunk_type" (metadata chunk) = Some (MStr chunk_type)
    /\ Dict.get "chunk_index" (metadata chunk) = Some (MInt j).
Proof.
  rewrite ChunkFacts.engine_flat_map, in_flat_map.
  intros (doc & Hdoc & Hc).
  apply StampFacts.chunks_of_tier in Hc as (ty & sp & Hty & Hc).
  apply StampFacts.tier_chunks_In in Hc as (j & _ & Hmd).
  apply StampFacts.sync_documents_provenance in Hdoc
    as (f & Hf & Hsource & Hpath & _).
  exists f, ty, j. split; [exact Hf|]. split; [exact Hty|].
  rewrite Hmd, !get_update by apply StampFacts.stamps_NoDup.
  repeat split; assumption || reflexivity.
Qed.

Lemma forallb_map_true {A B : Type} (g : A -> B) (P : B -> bool)
    (l : list A) :
  (forall x, In x l -> P (g x) = true) -> forallb P (map g l) = true.
Proof.
  intros H. apply forallb_forall. intros y Hy.
  apply in_map_iff in Hy as (x & <- & Hx). now apply H.
Qed.
End TraceMore.

(** X18: chunks retrieved from what a sync indexed are fully described:
    the coverage analysis returns for them (it never raises), and every
    entry of the debug details carries the name and the path of a file of
    the folder, one of the engine's four chunk types and an integer chunk
    index, never the defaults [Unknown], [standard] or [N/A] of a missing
    key. *)
Theorem synced_chunks_are_fully_described
    (extract : string -> option (list byte) -> result string)
    (split_text : splitter -> string -> list string)
    (documents_folder : string) (files : list file_entry) (st : store)
    (query : string) (retrieved_chunks : list Doc) (enhanced : option string)
    (log_to_file : bool) :
  (forall chunk,
      In chunk retrieved_chunks ->
      In chunk
         (create_optimized_chunks_for_large_docs split_text
            (returned_documents
               (sync_folder extract split_text documents_folder files st)))) ->
  (exists cov, Coverage.analyze_chunk_coverage retrieved_chunks = Ok cov)
  /\ forall d,
       In d (fst (Debug.log_retrieved_chunks_for_debugging query
                    retrieved_chunks enhanced log_to_file)) ->
       exists (f : file_entry) (chunk_type : string) (j : nat),
         In f files
         /\ In chunk_type ["broad"; "detailed"; "specific"; "standard"]
         /\ Debug.source d = MStr (fname f)
         /\ Debug.file_path d = MStr (file_path_of documents_folder f)
         /\ Debug.chunk_type d = MStr chunk_type
         /\ Debug.chunk_index d = MInt j.
Proof.
  intros Hfrom. split.
  - rewrite DebugMore.analysis_result.
    assert (Hs : uniform (map source_of retrieved_chunks) = true).
    { unfold uniform. apply orb_true_iff. left.
      apply TraceMore.forallb_map_true. intros c Hc.
      destruct (TraceMore.synced_chunk_fields _ _ _ _ _ _ (Hfrom c Hc))
        as (f & ty & j & _ & _ & H & _).
      unfold source_of, meta_get. now rewrite H. }
    assert (Ht : uniform (map chunk_type_of retrieved_chunks) = true).
    { unfold uniform. apply orb_true_iff. left.
      apply TraceMore.forallb_map_true. intros c Hc.
      destruct (TraceMore.synced_chunk_fields _ _ _ _ _ _ (Hfrom c Hc))
        as (f & ty & j & _ & _ & _ & _ & H & _).
      unfold chunk_type_of, meta_get. now rewrite H. }
    rewrite Hs, Ht. simpl. eauto.
  - intros d. rewrite DebugMore.details_map, in_map_iff.
    intros ([i c] & <- & Hic). apply in_combine_r in Hic.
    destruct (TraceMore.synced_chunk_fields _ _ _ _ _ _ (Hfrom c Hic))
      as (f & ty & j & Hf & Hty & Hsource & Hpath & Htype & Hindex).
    exists f, ty, j. split; [exact Hf|]. split; [exact Hty|].
    cbn [fst snd Debug.describe Debug.source Debug.file_path Debug.chunk_type
         Debug.chunk_index].
    unfold meta_get. now rewrite Hsource, Hpath, Htype, Hindex.
Qed.

Lemma synced_chunks_are_fully_described_witness :
  let files :=
    [mkFile [] "runbook.txt" (Some (bytes_of "Isolate the host.")) 10;
     mkFile ["vendors"] "list.txt" (Some (bytes_of "Acme Corp")) 20] in
  let retrieved_chunks :=
    create_optimized_chunks_for_large_docs fixed_width_split
      (returned_documents
         (sync_folder sample_extract fixed_width_split "docs" files
            empty_store)) in
  length retrieved_chunks = 2
  /\ exists cov, Coverage.analyze_chunk_coverage retrieved_chunks = Ok cov.
Proof.
  intros files retrieved_chunks. split; [vm_compute; reflexivity|].
  exact (proj1 (synced_chunks_are_fully_described sample_extract
                  fixed_width_split "docs" files empty_store
                  "Who are the vendors?" retrieved_chunks None false
                  (fun chunk H => H))).
Defined.

(** ** The embedding on small inputs *)

Example split_example :
  PyStr.split "  Pass the
 ticket  " = ["Pass"; "the"; "ticket"].
Proof. reflexivity. Qed.

Example lower_example : PyStr.lower "Pass The TICKET" = "pass the ticket".
Proof. reflexivity. Qed.

Example validate_example :
  validate_chunk_relevance "pass the ticket"
    [mkDoc "How to pass the ticket" []] strict_threshold = true.
Proof. vm_compute. reflexivity. Qed.

Example md5_empty : MD5.hexdigest [] = "d41d8cd98f00b204e9800998ecf8427e".
Proof. vm_compute. reflexivity. Qed.

Example md5_abc :
  MD5.hexdigest (bytes_of "abc") = "900150983cd24fb0d6963f7d28e17f72".
Proof. vm_compute. reflexivity. Qed.

Example md5_collision :
  MD5.hexdigest collision_a = "79054025255fb1a26e4bc422aef54eb4"
  /\ MD5.hexdigest collision_b = "79054025255fb1a26e4bc422aef54eb4".
Proof. split; vm_compute; reflexivity. Qed.

Example splitext_examples :
  map splitext_ext [".txt"; "a.b.TXT"; "..txt"; "a."; "...a.txt"; "notes"]
  = [""; ".TXT"; ""; "."; ".txt"; ""].
Proof. reflexivity. Qed.

Example walk_example :
  scan_folder "docs"
    [mkFile ["sops"] "Reset.TXT" (Some (bytes_of "abc")) 0;
     mkFile [] "image.png" (Some (bytes_of "abc")) 0;
     mkFile [] "locked.pdf" None 0]
  = [("docs/sops/Reset.TXT",
      mkInfo "900150983cd24fb0d6963f7d28e17f72" "Reset.TXT" ".txt" "sops")].
Proof. vm_compute. reflexivity. Qed.
